(** * IOT motion logging system: the persistent ring queue and the modem link

  A shallow embedding of [src/MainController/EEPROMStorage.h],
  [src/MainController/Status.h] and the response handling of
  [src/MainController/ESP01Driver.h], followed by the properties of
  the queue and of the AT-command state machine.

  Integers of the C++ source are [Z] with the wrap-around of their
  type written out.  The sketch is built on the AVR Arduino core (it
  uses [EEPROM.update] without [EEPROM.begin]/[commit] and drives the
  ESP-01 through [SoftwareSerial]); on that core [int] is 16 bits
  wide.  The width only matters where a [uint8_t] is promoted to
  [int] and shifted, so the functions concerned take it as a
  parameter and are instantiated at [INT_BITS]. *)

From Stdlib Require Import ZArith String Ascii List Bool Lia DecimalString.
Import ListNotations.

Local Open Scope string_scope.
Local Open Scope Z_scope.

(** ** Fixed-width integers *)

Module CInt.

(** Conversion to an unsigned type of [n] bits. *)
Definition to_u (n z : Z) : Z := z mod 2 ^ n.

(** Conversion to a signed two's complement type of [n] bits. *)
Definition to_s (n z : Z) : Z := (z + 2 ^ (n - 1)) mod 2 ^ n - 2 ^ (n - 1).

Definition u8 : Z -> Z := to_u 8.
Definition u16 : Z -> Z := to_u 16.
Definition u32 : Z -> Z := to_u 32.

(** The byte [(v >> k) & 0xFF] once passed as a [uint8_t]. *)
Definition stored_byte (v k : Z) : Z := u8 (Z.land (Z.shiftr v k) 255).

(** Width of [int] on the AVR core. *)
Definition INT_BITS : Z := 16.

(** [x << k] where [x] is a [uint8_t] promoted to an [int] of [w]
    bits.  A count of [w] or more leaves no bit of [x] in the result
    (avr-gcc yields 0); otherwise the shifted value is kept in the
    [w] bits of [int], bit [w-1] being the sign. *)
Definition int_shl (w x k : Z) : Z :=
  if w <=? k then 0 else to_s w (Z.shiftl x k).

End CInt.

(** ** The EEPROM object of the Arduino library

  [EEPROM.read(idx)] returns the [uint8_t] stored in the cell;
  [EEPROM.update(idx, val)] writes the cell only when [val] differs
  from what is stored.  [writes] counts the cells actually written.
  Cells are indexed by the address handed to the library; the size
  of the part is not modelled. *)

Module EEPROM.

Record t : Type := mk { cells : Z -> Z; writes : Z }.

Definition read (e : t) (idx : Z) : Z := CInt.u8 (cells e idx).

Definition write (e : t) (idx val : Z) : t :=
  {| cells := fun a => if a =? idx then CInt.u8 val else cells e a;
     writes := writes e + 1 |}.

Definition update (e : t) (idx val : Z) : t :=
  if read e idx =? CInt.u8 val then e else write e idx val.

(** A device whose cells all hold [v]; an erased EEPROM is [fill 255]. *)
Definition fill (v : Z) : t := {| cells := fun _ => v; writes := 0 |}.

(** A device with the two header cells set and [v] everywhere else. *)
Definition with_header (c h v : Z) : t :=
  {| cells := fun a => if a =? 0 then c else if a =? 1 then h else v;
     writes := 0 |}.

End EEPROM.

(** ** EEPROMStorage.h *)

Module EEPROMStorage.

Definition MAX_ENTRIES : Z := 10.
Definition ADDR_HEADER : Z := 0.
Definition ADDR_READINGS : Z := 16.
Definition READING_BYTES : Z := 8.

Record Reading : Type := mkReading { duration_ms : Z; ts : Z }.

(** The two members of the object together with the EEPROM device
    that its methods read and update. *)
Record t : Type := mk { count : Z; head : Z; eeprom : EEPROM.t }.

(** A freshly constructed object ([count = 0], [head = 0]) on a device. *)
Definition fresh (e : EEPROM.t) : t := {| count := 0; head := 0; eeprom := e |}.

Definition begin (s : t) : t :=
  let c := EEPROM.read (eeprom s) 0 in
  let h := EEPROM.read (eeprom s) 1 in
  if c >? MAX_ENTRIES
  then {| count := 0; head := 0; eeprom := eeprom s |}
  else {| count := c; head := h; eeprom := eeprom s |}.

Definition isFull (s : t) : bool := count s >=? MAX_ENTRIES.
Definition isEmpty (s : t) : bool := count s =? 0.
Definition hasPending (s : t) : bool := negb (isEmpty s).
Definition size (s : t) : Z := count s.

(** Address of slot [index]: a [uint16_t].  With [index] a [uint8_t]
    the sums [addr + 1 .. addr + 7] stay below [2^15]. *)
Definition slot_addr (index : Z) : Z :=
  CInt.u16 (ADDR_READINGS + index * READING_BYTES).

Definition writeReadingToEEPROM (index : Z) (r : Reading) (e : EEPROM.t) : EEPROM.t :=
  let addr := slot_addr index in
  let e := EEPROM.update e (addr + 0) (Z.land (Z.shiftr (duration_ms r) 0) 255) in
  let e := EEPROM.update e (addr + 1) (Z.land (Z.shiftr (duration_ms r) 8) 255) in
  let e := EEPROM.update e (addr + 2) (Z.land (Z.shiftr (duration_ms r) 16) 255) in
  let e := EEPROM.update e (addr + 3) (Z.land (Z.shiftr (duration_ms r) 24) 255) in
  let e := EEPROM.update e (addr + 4) (Z.land (Z.shiftr (ts r) 0) 255) in
  let e := EEPROM.update e (addr + 5) (Z.land (Z.shiftr (ts r) 8) 255) in
  let e := EEPROM.update e (addr + 6) (Z.land (Z.shiftr (ts r) 16) 255) in
  let e := EEPROM.update e (addr + 7) (Z.land (Z.shiftr (ts r) 24) 255) in
  e.

(** [b0 | (b1 << 8) | (b2 << 16) | (b3 << 24)]: every operand is an
    [int] of [w] bits, and so is the result, which is then converted
    to [uint32_t]. *)
Definition assemble (w b0 b1 b2 b3 : Z) : Z :=
  CInt.u32
    (Z.lor (Z.lor (Z.lor b0 (CInt.int_shl w b1 8)) (CInt.int_shl w b2 16))
           (CInt.int_shl w b3 24)).

Definition readReadingFromEEPROM_w (w : Z) (index : Z) (e : EEPROM.t) : Reading :=
  let addr := slot_addr index in
  let v0 := assemble w (EEPROM.read e addr) (EEPROM.read e (addr + 1))
                       (EEPROM.read e (addr + 2)) (EEPROM.read e (addr + 3)) in
  let v1 := assemble w (EEPROM.read e (addr + 4)) (EEPROM.read e (addr + 5))
                       (EEPROM.read e (addr + 6)) (EEPROM.read e (addr + 7)) in
  {| duration_ms := v0; ts := v1 |}.

Definition readReadingFromEEPROM : Z -> EEPROM.t -> Reading :=
  readReadingFromEEPROM_w CInt.INT_BITS.

Definition push (r : Reading) (s : t) : bool * t :=
  if isFull s then (false, s)
  else
    let tailIndex := CInt.u8 ((head s + count s) mod MAX_ENTRIES) in
    let e := writeReadingToEEPROM tailIndex r (eeprom s) in
    let c := CInt.u8 (count s + 1) in
    let e := EEPROM.update e 0 c in
    (true, {| count := c; head := head s; eeprom := e |}).

Definition peekOldest_w (w : Z) (s : t) : option Reading :=
  if isEmpty s then None
  else Some (readReadingFromEEPROM_w w (head s) (eeprom s)).

Definition peekOldest : t -> option Reading := peekOldest_w CInt.INT_BITS.

Definition popOldest (s : t) : bool * t :=
  if isEmpty s then (false, s)
  else
    let h := CInt.u8 ((head s + 1) mod MAX_ENTRIES) in
    let c := if count s =? 0 then count s else CInt.u8 (count s - 1) in
    let e := EEPROM.update (eeprom s) 1 h in
    let e := EEPROM.update e 0 c in
    (true, {| count := c; head := h; eeprom := e |}).

(** Queue operations issued by the producer and the consumer. *)
Inductive op : Type :=
| Push (r : Reading)
| Pop.

Definition step (s : t) (o : op) : t :=
  match o with
  | Push r => snd (push r s)
  | Pop => snd (popOldest s)
  end.

Definition run (ops : list op) (s : t) : t := fold_left step ops s.

(** Power-up: a new object is constructed and [begin()] is called. *)
Definition boot (e : EEPROM.t) : t := begin (fresh e).

(** Cells written by an operation. *)
Definition wear (before after : t) : Z :=
  EEPROM.writes (eeprom after) - EEPROM.writes (eeprom before).

End EEPROMStorage.

(** ** Status.h *)

Module ESPState.
Inductive t : Type := OFF | BOOTING | READY | SENDING | ERROR.

Definition eqb (a b : t) : bool :=
  match a, b with
  | OFF, OFF | BOOTING, BOOTING | READY, READY
  | SENDING, SENDING | ERROR, ERROR => true
  | _, _ => false
  end.
End ESPState.

Module PIRState.
Inductive t : Type := OFF | IDLE | MOTION.
End PIRState.

Module Status.

Record t : Type := mk {
  espState : ESPState.t;
  pirState : PIRState.t;
  storedReadingsCount : Z;
  lastSendAttemptTime : Z;
  lastSendSuccessTime : Z;
  lastSendOk : bool
}.

Definition init : t :=
  {| espState := ESPState.OFF;
     pirState := PIRState.IDLE;
     storedReadingsCount := 0;
     lastSendAttemptTime := 0;
     lastSendSuccessTime := 0;
     lastSendOk := false |}.

Definition set_espState (v : ESPState.t) (s : t) : t :=
  {| espState := v;
     pirState := pirState s;
     storedReadingsCount := storedReadingsCount s;
     lastSendAttemptTime := lastSendAttemptTime s;
     lastSendSuccessTime := lastSendSuccessTime s;
     lastSendOk := lastSendOk s |}.

Definition set_lastSendOk (v : bool) (s : t) : t :=
  {| espState := espState s;
     pirState := pirState s;
     storedReadingsCount := storedReadingsCount s;
     lastSendAttemptTime := lastSendAttemptTime s;
     lastSendSuccessTime := lastSendSuccessTime s;
     lastSendOk := v |}.

(** The three assignments made after a confirmed send. *)
Definition record_success (stored now : Z) (s : t) : t :=
  {| espState := espState s;
     pirState := pirState s;
     storedReadingsCount := CInt.u8 stored;
     lastSendAttemptTime := lastSendAttemptTime s;
     lastSendSuccessTime := CInt.u32 now;
     lastSendOk := true |}.

End Status.

(** ** The Arduino [String] operations used by the driver *)

Module WString.

Definition CRLF : string := String "013" (String "010" EmptyString).

(** [s.indexOf(pat)]: position of the first occurrence, or -1. *)
Definition indexOf (s pat : string) : Z :=
  match String.index 0 pat s with
  | Some n => Z.of_nat n
  | None => -1
  end.

(** [s.endsWith(suf)]. *)
Definition endsWith (s suf : string) : bool :=
  (String.length suf <=? String.length s)%nat
  && String.eqb
       (substring (String.length s - String.length suf) (String.length suf) s)
       suf.

Definition len (s : string) : Z := Z.of_nat (String.length s).

(** [s] between two double quotes (character 34). *)
Definition quoted (s : string) : string :=
  String "034" s ++ String "034" EmptyString.

(** [%lu] and [%d] of a value that is not negative. *)
Definition decimal (z : Z) : string := NilZero.string_of_uint (N.to_uint (Z.to_N z)).

(** [snprintf] into a buffer of [size] bytes keeps [size - 1] characters. *)
Definition snprintf (size : nat) (s : string) : string := substring 0 (size - 1) s.

End WString.

(** ** ESP01Driver.h *)

Module ESP01Driver.

Definition THINGSPEAK_API_KEY : string := "YOUR_THINGSPEAK_API_KEY".

(** The members of the driver, the two objects behind its pointers
    ([sysStatus], dereferenced without a test by [handleResponse], and
    [storage], [None] standing for [nullptr]), and what has been
    printed on the modem line ([ss]) and on the console ([Serial]). *)
Record t : Type := mk {
  sysStatus : Status.t;
  storage : option EEPROMStorage.t;
  pendingPayload : string;
  pendingSendState : Z;
  delayingForResponse : bool;
  lastAtCheck : Z;
  requestImmediateSend : bool;
  ss : list string;
  Serial : list string
}.

Definition begin (statusPtr : Status.t) (storagePtr : option EEPROMStorage.t) : t :=
  {| sysStatus := statusPtr;
     storage := storagePtr;
     pendingPayload := "";
     pendingSendState := 0;
     delayingForResponse := false;
     lastAtCheck := 0;
     requestImmediateSend := false;
     ss := [];
     Serial := [] |}.

Definition with_status (f : Status.t -> Status.t) (d : t) : t :=
  {| sysStatus := f (sysStatus d);
     storage := storage d;
     pendingPayload := pendingPayload d;
     pendingSendState := pendingSendState d;
     delayingForResponse := delayingForResponse d;
     lastAtCheck := lastAtCheck d;
     requestImmediateSend := requestImmediateSend d;
     ss := ss d;
     Serial := Serial d |}.

Definition with_storage (q : option EEPROMStorage.t) (d : t) : t :=
  {| sysStatus := sysStatus d;
     storage := q;
     pendingPayload := pendingPayload d;
     pendingSendState := pendingSendState d;
     delayingForResponse := delayingForResponse d;
     lastAtCheck := lastAtCheck d;
     requestImmediateSend := requestImmediateSend d;
     ss := ss d;
     Serial := Serial d |}.

Definition with_pending (payload : string) (st : Z) (d : t) : t :=
  {| sysStatus := sysStatus d;
     storage := storage d;
     pendingPayload := payload;
     pendingSendState := st;
     delayingForResponse := delayingForResponse d;
     lastAtCheck := lastAtCheck d;
     requestImmediateSend := requestImmediateSend d;
     ss := ss d;
     Serial := Serial d |}.

Definition with_delaying (b : bool) (d : t) : t :=
  {| sysStatus := sysStatus d;
     storage := storage d;
     pendingPayload := pendingPayload d;
     pendingSendState := pendingSendState d;
     delayingForResponse := b;
     lastAtCheck := lastAtCheck d;
     requestImmediateSend := requestImmediateSend d;
     ss := ss d;
     Serial := Serial d |}.

Definition ss_print (x : string) (d : t) : t :=
  {| sysStatus := sysStatus d;
     storage := storage d;
     pendingPayload := pendingPayload d;
     pendingSendState := pendingSendState d;
     delayingForResponse := delayingForResponse d;
     lastAtCheck := lastAtCheck d;
     requestImmediateSend := requestImmediateSend d;
     ss := ss d ++ [x];
     Serial := Serial d |}.

Definition Serial_print (x : string) (d : t) : t :=
  {| sysStatus := sysStatus d;
     storage := storage d;
     pendingPayload := pendingPayload d;
     pendingSendState := pendingSendState d;
     delayingForResponse := delayingForResponse d;
     lastAtCheck := lastAtCheck d;
     requestImmediateSend := requestImmediateSend d;
     ss := ss d;
     Serial := Serial d ++ [x] |}.

Definition Serial_println (x : string) (d : t) : t :=
  Serial_print (x ++ WString.CRLF) d.

Definition espState (d : t) : ESPState.t := Status.espState (sysStatus d).

Definition sendAt (cmd : string) (d : t) : t :=
  Serial_print cmd (Serial_print "[ESP CMD] " (ss_print cmd d)).

Definition isReadyForSend (d : t) : bool :=
  ESPState.eqb (espState d) ESPState.READY.

(** The request built by [snprintf] into [buffer[200]]. *)
Definition request (r : EEPROMStorage.Reading) : string :=
  WString.snprintf 200
    ("GET /update?api_key=" ++ THINGSPEAK_API_KEY ++ "&field1="
     ++ WString.decimal (CInt.u32 (EEPROMStorage.duration_ms r))
     ++ " HTTP/1.1" ++ WString.CRLF ++ "Host: api.thingspeak.com" ++ WString.CRLF
     ++ "Connection: close" ++ WString.CRLF ++ WString.CRLF).

Definition CIPSTART : string :=
  "AT+CIPSTART=" ++ WString.quoted "TCP" ++ "," ++ WString.quoted "api.thingspeak.com"
  ++ ",80" ++ WString.CRLF.

Definition sendReadingToThingSpeak (r : EEPROMStorage.Reading) (d : t) : bool * t :=
  if negb (isReadyForSend d) then (false, d)
  else
    let buffer := request r in
    let d := sendAt CIPSTART d in
    let d := with_delaying true d in
    let d := with_pending buffer 1 d in
    let d := with_status (Status.set_espState ESPState.SENDING) d in
    (true, d).

(** [line.indexOf(pat) >= 0]. *)
Definition found (line pat : string) : bool := WString.indexOf line pat >=? 0.

(** [handleResponse(line)]; [now] is what [millis()] returns during
    the call.  [loop()] passes it every non-empty trimmed line read
    from the modem. *)
Definition handleResponse (now : Z) (line : string) (d : t) : t :=
  let d := if found line "OK" && ESPState.eqb (espState d) ESPState.BOOTING
           then d else d in
  let d := if found line "WIFI GOT IP"
           then Serial_println "[ESP] WiFi connected, READY."
                  (with_status (Status.set_espState ESPState.READY) d)
           else d in
  let d := if found line "WIFI CONNECTED" then d else d in
  let d := if found line "ERROR"
           then with_status (Status.set_espState ESPState.ERROR) d else d in
  let d := if found line "DNS FAIL"
           then with_status (Status.set_espState ESPState.ERROR) d else d in
  if (found line "CONNECT" || found line "ALREADY CONNECT")
     && (pendingSendState d =? 1)
  then
    let len := WString.len (pendingPayload d) in
    let tmp := WString.snprintf 40
                 ("AT+CIPSEND=" ++ WString.decimal len ++ WString.CRLF) in
    let d := sendAt tmp d in
    with_pending (pendingPayload d) 2 d
  else if WString.endsWith line ">" && (pendingSendState d =? 2)
  then
    let d := ss_print (pendingPayload d) d in
    let d := Serial_print "[ESP CMD] <payload sent> len=" d in
    let d := Serial_println (WString.decimal (WString.len (pendingPayload d))) d in
    with_pending (pendingPayload d) 3 d
  else if found line "SEND OK" || found line "SEND FAIL"
  then
    let d :=
      if found line "SEND OK"
      then
        let d := Serial_println "[ESP] SEND OK - marking reading as sent." d in
        match storage d with
        | Some q =>
            if EEPROMStorage.hasPending q
            then
              let q := snd (EEPROMStorage.popOldest q) in
              let d := with_storage (Some q) d in
              with_status (Status.record_success (EEPROMStorage.size q) now) d
            else d
        | None => d
        end
      else
        let d := Serial_println "[ESP] SEND FAIL" d in
        with_status (Status.set_lastSendOk false) d
    in
    let d := with_pending "" 0 d in
    with_status (Status.set_espState ESPState.READY) d
  else if found line "CLOSED"
  then
    let d := with_pending "" 0 d in
    with_status (Status.set_espState ESPState.READY) d
  else d.

(** *** The classifier as a table of checks

    The checks of [handleResponse] in the order of the source, each
    with the condition under which it applies and what it does.  The
    two checks whose body is empty are left out. *)

Inductive check : Type :=
| AddressConfirmed
| GenericError
| DnsError
| ConnectConfirmation
| SendPrompt
| TransmitResult
| RemoteClose.

Definition applicable (c : check) (line : string) (d : t) : bool :=
  match c with
  | AddressConfirmed => found line "WIFI GOT IP"
  | GenericError => found line "ERROR"
  | DnsError => found line "DNS FAIL"
  | ConnectConfirmation =>
      (found line "CONNECT" || found line "ALREADY CONNECT") && (pendingSendState d =? 1)
  | SendPrompt => WString.endsWith line ">" && (pendingSendState d =? 2)
  | TransmitResult => found line "SEND OK" || found line "SEND FAIL"
  | RemoteClose => found line "CLOSED"
  end.

Definition clear_pending_ready (d : t) : t :=
  with_status (Status.set_espState ESPState.READY) (with_pending "" 0 d).

Definition confirm_sent (now : Z) (d : t) : t :=
  match storage d with
  | Some q =>
      if EEPROMStorage.hasPending q
      then
        let q' := snd (EEPROMStorage.popOldest q) in
        with_status (Status.record_success (EEPROMStorage.size q') now)
          (with_storage (Some q') d)
      else d
  | None => d
  end.

Definition action (c : check) (now : Z) (line : string) (d : t) : t :=
  match c with
  | AddressConfirmed =>
      Serial_println "[ESP] WiFi connected, READY."
        (with_status (Status.set_espState ESPState.READY) d)
  | GenericError | DnsError => with_status (Status.set_espState ESPState.ERROR) d
  | ConnectConfirmation =>
      let cmd := WString.snprintf 40
                   ("AT+CIPSEND=" ++ WString.decimal (WString.len (pendingPayload d))
                    ++ WString.CRLF) in
      with_pending (pendingPayload d) 2 (sendAt cmd d)
  | SendPrompt =>
      with_pending (pendingPayload d) 3
        (Serial_println (WString.decimal (WString.len (pendingPayload d)))
           (Serial_print "[ESP CMD] <payload sent> len="
              (ss_print (pendingPayload d) d)))
  | TransmitResult =>
      clear_pending_ready
        (if found line "SEND OK"
         then confirm_sent now (Serial_println "[ESP] SEND OK - marking reading as sent." d)
         else with_status (Status.set_lastSendOk false) (Serial_println "[ESP] SEND FAIL" d))
  | RemoteClose => clear_pending_ready d
  end.

Definition check_order : list check :=
  [AddressConfirmed; GenericError; DnsError;
   ConnectConfirmation; SendPrompt; TransmitResult; RemoteClose].

(** The checks that fall through to the next one. *)
Definition state_checks : list check := [AddressConfirmed; GenericError; DnsError].

(** The checks that end the handling of the line. *)
Definition send_checks : list check :=
  [ConnectConfirmation; SendPrompt; TransmitResult; RemoteClose].

(** As the specification words it: the first applicable check of
    [cs] acts, and no other. *)
Definition first_applicable_only (cs : list check) (now : Z) (line : string) (d : t) : t :=
  match find (fun c => applicable c line d) cs with
  | Some c => action c now line d
  | None => d
  end.

(** Every applicable check of [cs] acts, in order. *)
Definition every_applicable (cs : list check) (now : Z) (line : string) (d : t) : t :=
  fold_left (fun d c => if applicable c line d then action c now line d else d) cs d.

(** The checks of [cs] that apply to [line] in state [d]. *)
Definition matching (cs : list check) (line : string) (d : t) : list check :=
  filter (fun c => applicable c line d) cs.

End ESP01Driver.

(** ** Concrete devices and events used below *)

Module Scenario.

Import EEPROMStorage.

(** An erased device: every cell reads [0xFF]. *)
Definition erased : EEPROM.t := EEPROM.fill 255.

(** A device whose cells all read 0. *)
Definition zeroed : EEPROM.t := EEPROM.fill 0.

Definition eventA : Reading := mkReading 500 1000.
Definition eventB : Reading := mkReading 1200 2500.

(** [0x01010101] in both fields: no byte equals a zeroed cell. *)
Definition event01 : Reading := mkReading 16843009 16843009.

(** A motion of 70 s that ended 40 s after power-up. *)
Definition event70s : Reading := mkReading 70000 40000.

(** First power-up on an erased device, then one event is recorded. *)
Definition first_run : t := snd (push eventA (boot erased)).

(** The device is power-cycled after [first_run]. *)
Definition second_run : t := boot (eeprom first_run).

(** A queue holding ten entries, and one holding none. *)
Definition full_queue : t := {| count := 10; head := 3; eeprom := zeroed |}.
Definition empty_queue : t := {| count := 0; head := 3; eeprom := zeroed |}.

(** A header with [count = capacity + 1]. *)
Definition corrupted : t := fresh (EEPROM.with_header 11 7 0).

(** A header with a valid count and a head byte of 200; cell 1616,
    the first of slot 200, holds 42. *)
Definition stray_head : t :=
  fresh {| EEPROM.cells := fun a => if a =? 0 then 2 else if a =? 1 then 200
                                    else if a =? 1616 then 42 else 0;
           EEPROM.writes := 0 |}.

(** One event recorded on a zeroed device and then removed. *)
Definition cycle_start : t := boot zeroed.
Definition cycle_pushed : t := snd (push event01 cycle_start).
Definition cycle_popped : t := snd (popOldest cycle_pushed).

(** *** A send, step by step

    The driver is attached to a queue, the modem reports its address,
    a send is requested, the connection is confirmed and the prompt
    arrives: the driver then waits for the result of the transmission. *)

Definition queue_AB : t := snd (push eventB (snd (push eventA (boot zeroed)))).

Definition attached (q : t) : ESP01Driver.t :=
  ESP01Driver.begin Status.init (Some q).

Definition ready (q : t) : ESP01Driver.t :=
  ESP01Driver.handleResponse 100 "WIFI GOT IP" (attached q).

Definition sending (q : t) : ESP01Driver.t :=
  snd (ESP01Driver.sendReadingToThingSpeak eventA (ready q)).

Definition awaiting_prompt (q : t) : ESP01Driver.t :=
  ESP01Driver.handleResponse 200 "CONNECT" (sending q).

Definition awaiting_result (q : t) : ESP01Driver.t :=
  ESP01Driver.handleResponse 300 ">" (awaiting_prompt q).

(** The modem reports its address again while the send is under way. *)
Definition rejoined (q : t) : ESP01Driver.t :=
  ESP01Driver.handleResponse 250 "WIFI GOT IP" (sending q).

End Scenario.

(** ** EEPROMStorage.h: the listing *)

Module Listing.

Import EEPROMStorage.

(** The slot that the loop of [printAll] reads at step [i]. *)
Definition slot_of (s : t) (i : Z) : Z := CInt.u8 ((head s + i) mod MAX_ENTRIES).

(** The readings that [printAll] reads, oldest first: one for every
    [i] from 0 below [count]. *)
Definition readings_w (w : Z) (s : t) : list Reading :=
  map (fun i => readReadingFromEEPROM_w w (slot_of s (Z.of_nat i)) (eeprom s))
      (seq 0 (Z.to_nat (count s))).

Definition readings : t -> list Reading := readings_w CInt.INT_BITS.

(** What the loop of [printAll] prints for entry [i]. *)
Definition print_entry (i : nat) (r : Reading) : list string :=
  [WString.decimal (Z.of_nat i); ": duration_ms=";
   WString.decimal (duration_ms r); " ts=";
   (WString.decimal (ts r) ++ WString.CRLF)%string].

(** [printAll(out)]: what is printed is appended to [out]. *)
Definition printAll (s : t) (out : list string) : list string :=
  (out ++ ("EEPROM Stored Readings:" ++ WString.CRLF)%string
       :: concat (map (fun ir => print_entry (fst ir) (snd ir))
                      (combine (seq 0 (Z.to_nat (count s))) (readings s))))%list.

(** The header in the device is the one held in memory. *)
Definition header_synced (s : t) : bool :=
  (EEPROM.read (eeprom s) 0 =? count s) && (EEPROM.read (eeprom s) 1 =? head s).

End Listing.

(** ** ESP01Driver.h: the polling loop *)

Module ESP01Loop.

Import ESP01Driver.

(** [isspace] of the C library. *)
Definition isspace (c : ascii) : bool :=
  let n := nat_of_ascii c in
  ((n =? 32) || ((9 <=? n) && (n <=? 13)))%nat.

Fixpoint skip_space (l : list ascii) : list ascii :=
  match l with
  | [] => []
  | c :: l' => if isspace c then skip_space l' else l
  end.

(** [line.trim()]: white space is removed at both ends. *)
Definition trim (s : string) : string :=
  string_of_list_ascii
    (rev (skip_space (rev (skip_space (list_ascii_of_string s))))).

Definition with_lastAtCheck (v : Z) (d : t) : t :=
  {| sysStatus := sysStatus d;
     storage := storage d;
     pendingPayload := pendingPayload d;
     pendingSendState := pendingSendState d;
     delayingForResponse := delayingForResponse d;
     lastAtCheck := v;
     requestImmediateSend := requestImmediateSend d;
     ss := ss d;
     Serial := Serial d |}.

Definition AT : string := "AT" ++ WString.CRLF.

(** The command that [handleResponse] builds to announce [payload]. *)
Definition CIPSEND (payload : string) : string :=
  WString.snprintf 40
    ("AT+CIPSEND=" ++ WString.decimal (WString.len payload) ++ WString.CRLF).

(** The body of the [while] loop for one string returned by
    [readStringUntil]; [now] is what [millis()] returns while the line
    is handled. *)
Definition receive (showRawResponses : bool) (d : t) (timed : Z * string) : t :=
  let line := trim (snd timed) in
  if (String.length line =? 0)%nat then d
  else
    let d := if showRawResponses
             then Serial_println line (Serial_print "[ESP RAW] " d)
             else d in
    handleResponse (fst timed) line d.

(** [loop(showRawResponses)].  [input] holds the strings that the
    successive calls of [ss.readStringUntil] return until nothing is
    available, each with the time at which it is handled; [now] is the
    value of [millis()] read after them. *)
Definition loop (showRawResponses : bool) (input : list (Z * string)) (now : Z) (d : t) : t :=
  let d := fold_left (receive showRawResponses) input d in
  if ESPState.eqb (espState d) ESPState.BOOTING
     && (CInt.u32 (now - lastAtCheck d) >? 2000)
  then with_lastAtCheck now (sendAt AT d)
  else d.

End ESP01Loop.

(** ** MotionDetector.h *)

Module MotionDetector.

(** The members of the detector with the two objects behind its
    pointers, [None] standing for [nullptr]. *)
Record t : Type := mk {
  pirPin : Z;
  lastState : Z;
  motionActive : bool;
  motionStart : Z;
  lastDurationMs : Z;
  storage : option EEPROMStorage.t;
  status : option Status.t
}.

(** The object as its constructor leaves it. *)
Definition make (pin : Z) : t :=
  {| pirPin := CInt.u8 pin;
     lastState := 0;
     motionActive := false;
     motionStart := 0;
     lastDurationMs := 0;
     storage := None;
     status := None |}.

Definition set_pirState (v : PIRState.t) (s : Status.t) : Status.t :=
  {| Status.espState := Status.espState s;
     Status.pirState := v;
     Status.storedReadingsCount := Status.storedReadingsCount s;
     Status.lastSendAttemptTime := Status.lastSendAttemptTime s;
     Status.lastSendSuccessTime := Status.lastSendSuccessTime s;
     Status.lastSendOk := Status.lastSendOk s |}.

Definition set_storedReadingsCount (v : Z) (s : Status.t) : Status.t :=
  {| Status.espState := Status.espState s;
     Status.pirState := Status.pirState s;
     Status.storedReadingsCount := CInt.u8 v;
     Status.lastSendAttemptTime := Status.lastSendAttemptTime s;
     Status.lastSendSuccessTime := Status.lastSendSuccessTime s;
     Status.lastSendOk := Status.lastSendOk s |}.

Definition with_status (f : Status.t -> Status.t) (m : t) : t :=
  {| pirPin := pirPin m;
     lastState := lastState m;
     motionActive := motionActive m;
     motionStart := motionStart m;
     lastDurationMs := lastDurationMs m;
     storage := storage m;
     status := option_map f (status m) |}.

Definition setStorage (s : option EEPROMStorage.t) (m : t) : t :=
  {| pirPin := pirPin m;
     lastState := lastState m;
     motionActive := motionActive m;
     motionStart := motionStart m;
     lastDurationMs := lastDurationMs m;
     storage := s;
     status := status m |}.

(** [begin(statusPtr)]; [level] is what [digitalRead(pirPin)] returns. *)
Definition begin (statusPtr : option Status.t) (level : Z) (m : t) : t :=
  {| pirPin := pirPin m;
     lastState := level;
     motionActive := motionActive m;
     motionStart := motionStart m;
     lastDurationMs := lastDurationMs m;
     storage := storage m;
     status :=
       option_map
         (set_pirState (if level =? 0 then PIRState.IDLE else PIRState.MOTION))
         statusPtr |}.

Definition onMotionComplete (duration_ms ts : Z) (m : t) : t :=
  let m := {| pirPin := pirPin m;
              lastState := lastState m;
              motionActive := motionActive m;
              motionStart := motionStart m;
              lastDurationMs := CInt.u32 duration_ms;
              storage := storage m;
              status := status m |} in
  match storage m with
  | Some q =>
      let r := {| EEPROMStorage.duration_ms := CInt.u32 duration_ms;
                  EEPROMStorage.ts := CInt.u32 ts |} in
      let pushed := EEPROMStorage.push r q in
      let m := setStorage (Some (snd pushed)) m in
      if fst pushed
      then with_status (set_storedReadingsCount (EEPROMStorage.size (snd pushed))) m
      else m
  | None => m
  end.

(** [loop()]; [state] is what [digitalRead(pirPin)] returns and [now]
    what [millis()] returns. *)
Definition loop (state now : Z) (m : t) : t :=
  let m :=
    if negb (state =? 0) && (lastState m =? 0)
    then
      with_status (set_pirState PIRState.MOTION)
        {| pirPin := pirPin m;
           lastState := lastState m;
           motionActive := true;
           motionStart := CInt.u32 now;
           lastDurationMs := lastDurationMs m;
           storage := storage m;
           status := status m |}
    else if (state =? 0) && negb (lastState m =? 0) && motionActive m
    then
      let duration := CInt.u32 (now - motionStart m) in
      let m := onMotionComplete duration (motionStart m) m in
      with_status (set_pirState PIRState.IDLE)
        {| pirPin := pirPin m;
           lastState := lastState m;
           motionActive := false;
           motionStart := motionStart m;
           lastDurationMs := lastDurationMs m;
           storage := storage m;
           status := status m |}
    else m in
  {| pirPin := pirPin m;
     lastState := state;
     motionActive := motionActive m;
     motionStart := motionStart m;
     lastDurationMs := lastDurationMs m;
     storage := storage m;
     status := status m |}.

(** One poll: the level read and the time. *)
Definition poll (m : t) (sample : Z * Z) : t := loop (fst sample) (snd sample) m.

End MotionDetector.

(** ** Concrete inputs for the polling loop and the detector *)

Module Cases.

(** A driver that is booting and sent its last probe 1296 ms before
    [millis()] rolls over. *)
Definition booting : ESP01Driver.t :=
  ESP01Loop.with_lastAtCheck 4294966000
    (ESP01Driver.with_status (Status.set_espState ESPState.BOOTING)
       (Scenario.attached Scenario.queue_AB)).

(** What the modem says while it joins the network, as read by
    [readStringUntil]: each line still ends with a carriage return. *)
Definition boot_chatter : list (Z * string) :=
  [(10, String "013" ""); (20, "OK" ++ String "013" "");
   (30, "WIFI CONNECTED" ++ String "013" "");
   (40, "WIFI GOT IP" ++ String "013" "")].

(** A detector watching pin 2 with a queue and a status record. *)
Definition detector (q : EEPROMStorage.t) : MotionDetector.t :=
  MotionDetector.setStorage (Some q)
    (MotionDetector.begin (Some Status.init) 0 (MotionDetector.make 2)).

End Cases.

(** * Properties of the persistent ring queue *)

Section Bytes.

Import CInt.

Lemma u8_range z : 0 <= u8 z < 256.
Proof. unfold u8, to_u. change (2 ^ 8) with 256. apply Z.mod_pos_bound. lia. Qed.

Lemma u8_small z : 0 <= z < 256 -> u8 z = z.
Proof. intros H. unfold u8, to_u. change (2 ^ 8) with 256. now apply Z.mod_small. Qed.

Lemma u8_idem z : u8 (u8 z) = u8 z.
Proof. apply u8_small, u8_range. Qed.

Lemma to_s_congr n x : 0 < n -> (to_s n x) mod 2 ^ n = x mod 2 ^ n.
Proof.
  intros Hn. unfold to_s.
  rewrite Zminus_mod_idemp_l. f_equal. lia.
Qed.

Lemma testbit_to_s_low n x i :
  0 < n -> i < n -> Z.testbit (to_s n x) i = Z.testbit x i.
Proof.
  intros Hn Hi.
  rewrite <- (Z.mod_pow2_bits_low (to_s n x) n i Hi).
  rewrite to_s_congr by exact Hn.
  now apply Z.mod_pow2_bits_low.
Qed.

Lemma to_s_small n x : 0 < n -> 0 <= x < 2 ^ (n - 1) -> to_s n x = x.
Proof.
  intros Hn Hx. unfold to_s.
  assert (E : 2 ^ n = 2 * 2 ^ (n - 1)).
  { rewrite <- Z.pow_succ_r by lia. f_equal. lia. }
  rewrite Z.mod_small by lia. lia.
Qed.

Lemma testbit_above d n i :
  0 <= n -> 0 <= d < 2 ^ n -> n <= i -> Z.testbit d i = false.
Proof.
  intros Hn Hd Hi.
  rewrite <- (Z.mod_small d (2 ^ n)) by exact Hd.
  apply Z.mod_pow2_bits_high. lia.
Qed.

(** Bit [j] of the byte [(d >> k) & 0xFF] as [EEPROM.update] stores it. *)
Lemma testbit_byte d k j :
  0 <= k ->
  Z.testbit (u8 (Z.land (Z.shiftr d k) 255)) j
  = (0 <=? j) && (j <? 8) && Z.testbit d (j + k).
Proof.
  intros Hk. unfold u8, to_u.
  destruct (Z.leb_spec 0 j) as [Hj | Hj].
  - rewrite Z.testbit_mod_pow2 by lia.
    rewrite Z.land_spec, Z.shiftr_spec by exact Hj.
    change 255 with (Z.ones 8).
    rewrite Z.testbit_ones_nonneg by lia.
    destruct (j <? 8), (Z.testbit d (j + k)); reflexivity.
  - now rewrite Z.testbit_neg_r by exact Hj.
Qed.

End Bytes.

Section Assemble.

Import CInt EEPROMStorage.

Ltac bit_cases :=
  repeat match goal with
    | |- context [?a <? ?b] => destruct (Z.ltb_spec a b); try lia
    | |- context [?a <=? ?b] => destruct (Z.leb_spec a b); try lia
    end.

(** With an [int] of 32 bits the four bytes give the value back. *)
Lemma assemble_32 v :
  0 <= v < 2 ^ 32 ->
  assemble 32 (stored_byte v 0) (stored_byte v 8) (stored_byte v 16) (stored_byte v 24) = v.
Proof.
  intros Hv. unfold assemble, u32, to_u, int_shl. cbn [Z.leb Z.compare Pos.compare Pos.compare_cont].
  apply Z.bits_inj'. intros i Hi.
  rewrite Z.testbit_mod_pow2 by lia.
  destruct (Z.ltb_spec i 32) as [H32 | H32]; cbn [andb].
  2:{ symmetry. apply (testbit_above v 32); lia. }
  rewrite !Z.lor_spec.
  rewrite !testbit_to_s_low by lia.
  rewrite !Z.shiftl_spec by exact Hi.
  unfold stored_byte. rewrite !testbit_byte by lia.
  bit_cases; cbn [andb orb];
    rewrite ?Bool.orb_false_r; try reflexivity; f_equal; lia.
Qed.

(** With an [int] of 16 bits they do so for values below [2^15]. *)
Lemma assemble_16_small v :
  0 <= v < 2 ^ 15 ->
  assemble 16 (stored_byte v 0) (stored_byte v 8) (stored_byte v 16) (stored_byte v 24) = v.
Proof.
  intros Hv. unfold assemble, u32, to_u, int_shl. cbn [Z.leb Z.compare Pos.compare Pos.compare_cont].
  rewrite !Z.lor_0_r.
  assert (Hb : 0 <= Z.shiftl (stored_byte v 8) 8 < 2 ^ (16 - 1)).
  { rewrite Z.shiftl_mul_pow2 by lia. unfold stored_byte.
    rewrite u8_small.
    - change 255 with (Z.ones 8). rewrite Z.land_ones, Z.shiftr_div_pow2 by lia.
      change (2 ^ 8) with 256. change (2 ^ (16 - 1)) with 32768.
      change (2 ^ 15) with 32768 in Hv.
      assert (v / 256 < 128) by (apply Z.div_lt_upper_bound; lia).
      assert (0 <= v / 256) by (apply Z.div_pos; lia).
      rewrite Z.mod_small; lia.
    - change 255 with (Z.ones 8). rewrite Z.land_ones by lia.
      change (2 ^ 8) with 256. apply Z.mod_pos_bound. lia. }
  rewrite to_s_small by (lia || exact Hb).
  apply Z.bits_inj'. intros i Hi.
  rewrite Z.testbit_mod_pow2 by lia.
  destruct (Z.ltb_spec i 15) as [H15 | H15].
  2:{ rewrite (testbit_above v 15) by lia.
      rewrite Z.lor_spec, Z.shiftl_spec by exact Hi.
      unfold stored_byte. rewrite !testbit_byte by lia.
      replace (i - 8 + 8) with i by lia.
      rewrite (testbit_above v 15 i), (testbit_above v 15 (i + 0)) by lia.
      now rewrite !Bool.andb_false_r. }
  rewrite Z.lor_spec, Z.shiftl_spec by exact Hi.
  unfold stored_byte. rewrite !testbit_byte by lia.
  bit_cases; cbn [andb orb];
    rewrite ?Bool.orb_false_r; try reflexivity; f_equal; lia.
Qed.

End Assemble.

Section Device.

Import CInt.

Lemma read_range e a : 0 <= EEPROM.read e a < 256.
Proof. apply u8_range. Qed.

Lemma read_write e a v x :
  EEPROM.read (EEPROM.write e a v) x = if x =? a then u8 v else EEPROM.read e x.
Proof.
  unfold EEPROM.read, EEPROM.write; cbn.
  destruct (x =? a); [apply u8_idem | reflexivity].
Qed.

(** Reading after [update]: the cell holds the new byte, the others
    are as before, whether or not the cell was written. *)
Lemma read_update e a v x :
  EEPROM.read (EEPROM.update e a v) x = if x =? a then u8 v else EEPROM.read e x.
Proof.
  unfold EEPROM.update.
  destruct (Z.eqb_spec (EEPROM.read e a) (u8 v)) as [E | E].
  - destruct (Z.eqb_spec x a) as [-> | _]; [exact E | reflexivity].
  - apply read_write.
Qed.

(** [update] writes exactly when the byte differs. *)
Lemma writes_update e a v :
  EEPROM.writes (EEPROM.update e a v)
  = EEPROM.writes e + (if EEPROM.read e a =? u8 v then 0 else 1).
Proof.
  unfold EEPROM.update.
  destruct (EEPROM.read e a =? u8 v); cbn; lia.
Qed.

Lemma writes_update_bounds e a v :
  EEPROM.writes e <= EEPROM.writes (EEPROM.update e a v) <= EEPROM.writes e + 1.
Proof.
  rewrite writes_update. destruct (EEPROM.read e a =? u8 v); lia.
Qed.

End Device.

Section Queue.

Import CInt EEPROMStorage.

Lemma slot_addr_small i : 0 <= i < 256 -> slot_addr i = 16 + 8 * i.
Proof.
  intros H. unfold slot_addr, u16, to_u, ADDR_READINGS, READING_BYTES.
  change (2 ^ 16) with 65536. rewrite Z.mod_small; lia.
Qed.

Lemma writes_writeReading i r e :
  EEPROM.writes e <= EEPROM.writes (writeReadingToEEPROM i r e) <= EEPROM.writes e + 8.
Proof.
  unfold writeReadingToEEPROM. cbv zeta.
  repeat match goal with
    | |- context [EEPROM.update ?e ?a ?v] =>
        lazymatch e with
        | context [EEPROM.update] => fail
        | _ => pose proof (writes_update_bounds e a v);
               generalize dependent (EEPROM.update e a v); intros
        end
    end.
  lia.
Qed.

(** Cells outside the slot are not touched by [writeReadingToEEPROM]. *)
Lemma read_writeReading_other i r e x :
  (x < slot_addr i \/ slot_addr i + 7 < x) ->
  EEPROM.read (writeReadingToEEPROM i r e) x = EEPROM.read e x.
Proof.
  intros H. unfold writeReadingToEEPROM. cbv zeta.
  rewrite !read_update.
  repeat match goal with
    | |- context [?a =? ?b] => destruct (Z.eqb_spec a b); [lia | ]
    end.
  reflexivity.
Qed.

(** Cell [k] of the slot holds byte [k] of the reading. *)
Lemma read_writeReading_slot i r e :
  let a := slot_addr i in
  let e' := writeReadingToEEPROM i r e in
  EEPROM.read e' a = stored_byte (duration_ms r) 0 /\
  EEPROM.read e' (a + 1) = stored_byte (duration_ms r) 8 /\
  EEPROM.read e' (a + 2) = stored_byte (duration_ms r) 16 /\
  EEPROM.read e' (a + 3) = stored_byte (duration_ms r) 24 /\
  EEPROM.read e' (a + 4) = stored_byte (ts r) 0 /\
  EEPROM.read e' (a + 5) = stored_byte (ts r) 8 /\
  EEPROM.read e' (a + 6) = stored_byte (ts r) 16 /\
  EEPROM.read e' (a + 7) = stored_byte (ts r) 24.
Proof.
  cbv zeta. unfold writeReadingToEEPROM. cbv zeta.
  generalize (slot_addr i); intros a.
  rewrite !read_update. unfold stored_byte.
  repeat split;
    repeat match goal with
      | |- context [?a =? ?b] => destruct (Z.eqb_spec a b); try lia
      end;
    reflexivity.
Qed.

End Queue.

Section AvrRange.

Import CInt EEPROMStorage.

Lemma lor_disjoint a b n :
  0 <= n -> 0 <= a < 2 ^ n -> Z.lor a (b * 2 ^ n) = a + b * 2 ^ n.
Proof.
  intros Hn Ha.
  assert (E : Z.land a (b * 2 ^ n) = 0).
  { apply Z.bits_inj'. intros i Hi. rewrite Z.land_spec, Z.bits_0.
    destruct (Z.lt_ge_cases i n) as [Hlt | Hge].
    - rewrite Z.mul_pow2_bits_low by exact Hlt. apply Bool.andb_false_r.
    - rewrite (testbit_above a n i) by lia. reflexivity. }
  pose proof (Z.add_lor_land a (b * 2 ^ n)) as H. rewrite E in H. lia.
Qed.

(** On the AVR core the value read back is one of a 16-bit [int]
    converted to [uint32_t]: nothing between [2^15] and
    [2^32 - 2^15] is ever returned. *)
Lemma assemble_16_range b0 b1 b2 b3 :
  0 <= b0 < 256 -> 0 <= b1 < 256 ->
  assemble 16 b0 b1 b2 b3 < 2 ^ 15 \/ 2 ^ 32 - 2 ^ 15 <= assemble 16 b0 b1 b2 b3.
Proof.
  intros H0 H1. unfold assemble, u32, to_u, int_shl.
  cbn [Z.leb Z.compare Pos.compare Pos.compare_cont].
  rewrite !Z.lor_0_r, Z.shiftl_mul_pow2 by lia.
  assert (Hk : exists k, -128 <= k < 128 /\ to_s 16 (b1 * 2 ^ 8) = k * 2 ^ 8).
  { unfold to_s. change (2 ^ 8) with 256. change (2 ^ (16 - 1)) with 32768.
    change (2 ^ 16) with 65536.
    exists (b1 - 256 * ((b1 * 256 + 32768) / 65536)).
    Z.div_mod_to_equations. lia. }
  destruct Hk as (k & Hk & ->).
  rewrite lor_disjoint by (change (2 ^ 8) with 256; lia).
  change (2 ^ 8) with 256. change (2 ^ 15) with 32768.
  change (2 ^ 32) with 4294967296.
  Z.div_mod_to_equations. lia.
Qed.

Lemma readReading_avr_range i e :
  let r := readReadingFromEEPROM i e in
  (duration_ms r < 2 ^ 15 \/ 2 ^ 32 - 2 ^ 15 <= duration_ms r) /\
  (ts r < 2 ^ 15 \/ 2 ^ 32 - 2 ^ 15 <= ts r).
Proof.
  cbv zeta. unfold readReadingFromEEPROM, readReadingFromEEPROM_w, INT_BITS.
  cbn [duration_ms ts]. split; apply assemble_16_range; apply read_range.
Qed.

End AvrRange.

Section Roundtrip.

Import CInt EEPROMStorage.

(** Width of [int] and the values that [assemble] gives back at that width. *)
Variable w : Z.
Variable bound : Z.
Hypothesis assemble_bytes :
  forall v, 0 <= v < bound ->
    assemble w (stored_byte v 0) (stored_byte v 8) (stored_byte v 16) (stored_byte v 24) = v.

Lemma push_peek_w r s :
  isEmpty s = true ->
  0 <= head s < MAX_ENTRIES ->
  0 <= duration_ms r < bound ->
  0 <= ts r < bound ->
  fst (push r s) = true /\ peekOldest_w w (snd (push r s)) = Some r.
Proof.
  unfold isEmpty, MAX_ENTRIES. intros Hc Hh Hd Ht.
  apply Z.eqb_eq in Hc.
  unfold push, isFull, MAX_ENTRIES. rewrite Hc. cbn [Z.geb Z.compare fst snd].
  split; [reflexivity | ].
  unfold peekOldest_w, isEmpty. cbn [count head eeprom].
  change (u8 (0 + 1) =? 0) with false. cbv iota.
  replace (u8 ((head s + 0) mod 10)) with (head s).
  2:{ rewrite Z.add_0_r, Z.mod_small by lia. symmetry. apply u8_small. lia. }
  unfold readReadingFromEEPROM_w. cbv zeta.
  pose proof (slot_addr_small (head s)) as Ha.
  rewrite !read_update.
  repeat match goal with
    | |- context [?a =? 0] => destruct (Z.eqb_spec a 0); [lia | ]
    end.
  destruct (read_writeReading_slot (head s) r (eeprom s))
    as (E0 & E1 & E2 & E3 & E4 & E5 & E6 & E7).
  cbv zeta in *.
  rewrite E0, E1, E2, E3, E4, E5, E6, E7.
  rewrite !assemble_bytes by assumption.
  now destruct r.
Qed.

End Roundtrip.

Section QueueClaims.

Import CInt EEPROMStorage.

(** Round trip on a target whose [int] has 32 bits. *)
Lemma push_peek_roundtrip_int32 r s :
  isEmpty s = true ->
  0 <= head s < MAX_ENTRIES ->
  0 <= duration_ms r < 2 ^ 32 ->
  0 <= ts r < 2 ^ 32 ->
  fst (push r s) = true /\ peekOldest_w 32 (snd (push r s)) = Some r.
Proof. apply push_peek_w. exact assemble_32. Qed.

(** Round trip on the AVR core for fields below [2^15]. *)
Lemma push_peek_roundtrip_avr_small r s :
  isEmpty s = true ->
  0 <= head s < MAX_ENTRIES ->
  0 <= duration_ms r < 2 ^ 15 ->
  0 <= ts r < 2 ^ 15 ->
  fst (push r s) = true /\ peekOldest (snd (push r s)) = Some r.
Proof. apply push_peek_w. exact assemble_16_small. Qed.

(** C2, evaluated on the AVR core: [event70s] is accepted by [push]
    on an empty queue, and [peekOldest] then returns a duration of
    4464 and a timestamp of 4294941760 instead of 70000 and 40000. *)
Theorem push_peek_avr_truncates :
  isEmpty (boot Scenario.erased) = true /\
  fst (push Scenario.event70s (boot Scenario.erased)) = true /\
  peekOldest (snd (push Scenario.event70s (boot Scenario.erased)))
  = Some {| duration_ms := 4464; ts := 4294941760 |}.
Proof. repeat split; vm_compute; reflexivity. Qed.

(** C8: when the stored count byte exceeds the capacity, [begin]
    leaves an empty queue with [count = 0] and [head = 0]; it is a
    total function, so nothing is raised, and the device is not
    touched. *)
Theorem begin_resets_corrupted_header s :
  EEPROM.read (eeprom s) 0 > MAX_ENTRIES ->
  begin s = {| count := 0; head := 0; eeprom := eeprom s |}
  /\ isEmpty (begin s) = true.
Proof.
  intros H. unfold begin.
  destruct (Z.gtb_spec (EEPROM.read (eeprom s) 0) MAX_ENTRIES) as [_ | Hle];
    [split; reflexivity | lia].
Qed.

Lemma begin_resets_corrupted_header_witness :
  EEPROM.read (eeprom Scenario.corrupted) 0 = MAX_ENTRIES + 1 /\
  (begin Scenario.corrupted
   = {| count := 0; head := 0; eeprom := eeprom Scenario.corrupted |}
   /\ isEmpty (begin Scenario.corrupted) = true).
Proof.
  split; [reflexivity | ].
  apply (begin_resets_corrupted_header Scenario.corrupted). reflexivity.
Defined.

(** C9: [push] on a full queue and [popOldest] on an empty queue
    return [false] and leave [count], [head] and the device as they
    were. *)
Theorem push_full_pop_empty_unchanged r sf se :
  isFull sf = true ->
  isEmpty se = true ->
  push r sf = (false, sf) /\ popOldest se = (false, se).
Proof.
  intros Hf He. unfold push, popOldest. now rewrite Hf, He.
Qed.

Lemma push_full_pop_empty_unchanged_witness :
  push Scenario.eventA Scenario.full_queue = (false, Scenario.full_queue) /\
  popOldest Scenario.empty_queue = (false, Scenario.empty_queue).
Proof.
  apply (push_full_pop_empty_unchanged Scenario.eventA
           Scenario.full_queue Scenario.empty_queue); reflexivity.
Defined.

(** C10: [begin] tests the count byte only.  When it is at most the
    capacity the head is the stored head byte [h], whatever its
    value, and [peekOldest] on the non-empty queue assembles its
    answer from the eight cells at [16 + 8 * h]. *)
Theorem begin_keeps_stored_head s :
  EEPROM.read (eeprom s) 0 <= MAX_ENTRIES ->
  let e := eeprom s in
  let h := EEPROM.read e 1 in
  let a := 16 + 8 * h in
  count (begin s) = EEPROM.read e 0 /\
  head (begin s) = h /\
  (isEmpty (begin s) = false ->
   peekOldest (begin s)
   = Some {| duration_ms :=
               assemble INT_BITS (EEPROM.read e a) (EEPROM.read e (a + 1))
                        (EEPROM.read e (a + 2)) (EEPROM.read e (a + 3));
             ts :=
               assemble INT_BITS (EEPROM.read e (a + 4)) (EEPROM.read e (a + 5))
                        (EEPROM.read e (a + 6)) (EEPROM.read e (a + 7)) |}).
Proof.
  intros H. cbv zeta. unfold begin.
  destruct (Z.gtb_spec (EEPROM.read (eeprom s) 0) MAX_ENTRIES) as [Hgt | _]; [lia | ].
  cbn [count head]. repeat split.
  intros Hne. unfold peekOldest, peekOldest_w. rewrite Hne.
  cbn [head eeprom]. unfold readReadingFromEEPROM_w. cbv zeta.
  rewrite slot_addr_small by apply read_range.
  reflexivity.
Qed.

Lemma begin_keeps_stored_head_witness :
  EEPROM.read (eeprom Scenario.stray_head) 0 <= MAX_ENTRIES /\
  head (begin Scenario.stray_head) = 200 /\
  peekOldest (begin Scenario.stray_head) = Some {| duration_ms := 42; ts := 0 |}.
Proof.
  assert (Hle : EEPROM.read (eeprom Scenario.stray_head) 0 <= MAX_ENTRIES)
    by (vm_compute; discriminate).
  split; [exact Hle | ].
  destruct (begin_keeps_stored_head Scenario.stray_head Hle) as (_ & Hh & Hp).
  split; [exact Hh | apply Hp; reflexivity].
Defined.
(** *** Bounds on [count] and [head] *)

Lemma boot_count_bounds e : 0 <= count (boot e) <= MAX_ENTRIES.
Proof.
  unfold boot, begin, fresh, MAX_ENTRIES. cbn [eeprom].
  pose proof (read_range e 0).
  destruct (Z.gtb_spec (EEPROM.read e 0) 10); cbn [count]; lia.
Qed.

Lemma step_count_bounds s o :
  0 <= count s <= MAX_ENTRIES -> 0 <= count (step s o) <= MAX_ENTRIES.
Proof.
  unfold MAX_ENTRIES. intros H.
  destruct o as [r | ]; unfold step, push, popOldest, isFull, isEmpty, MAX_ENTRIES.
  - destruct (Z.geb_spec (count s) 10); cbn [snd count]; [lia | ].
    rewrite u8_small; lia.
  - destruct (Z.eqb_spec (count s) 0); cbn [snd count]; [lia | ].
    rewrite u8_small; lia.
Qed.

(** [count] stays within [0 .. MAX_ENTRIES] along every sequence of
    operations after [begin()], whatever the device holds. *)
Lemma run_count_bounds ops e : 0 <= count (run ops (boot e)) <= MAX_ENTRIES.
Proof.
  unfold run. generalize (boot e) (boot_count_bounds e).
  induction ops as [ | o ops IH]; intros s Hs; cbn [fold_left].
  - exact Hs.
  - apply IH, step_count_bounds, Hs.
Qed.

Lemma step_head_bounds s o :
  0 <= head s < MAX_ENTRIES -> 0 <= head (step s o) < MAX_ENTRIES.
Proof.
  unfold MAX_ENTRIES. intros H.
  destruct o as [r | ]; unfold step, push, popOldest, MAX_ENTRIES.
  - destruct (isFull s); cbn [snd head]; lia.
  - destruct (isEmpty s); cbn [snd head]; [lia | ].
    pose proof (Z.mod_pos_bound (head s + 1) 10).
    rewrite u8_small; lia.
Qed.

(** [head] stays within [0 .. MAX_ENTRIES - 1] once it is there. *)
Lemma run_head_bounds ops s :
  0 <= head s < MAX_ENTRIES -> 0 <= head (run ops s) < MAX_ENTRIES.
Proof.
  unfold run. revert s.
  induction ops as [ | o ops IH]; intros s Hs; cbn [fold_left].
  - exact Hs.
  - apply IH, step_head_bounds, Hs.
Qed.

(** [begin()] yields a head in range exactly when the header was
    reset or the stored head byte is in range. *)
Lemma boot_head_bounds e :
  0 <= head (boot e) < MAX_ENTRIES
  <-> (EEPROM.read e 0 > MAX_ENTRIES \/ EEPROM.read e 1 < MAX_ENTRIES).
Proof.
  unfold boot, begin, fresh, MAX_ENTRIES. cbn [eeprom].
  pose proof (read_range e 1).
  destruct (Z.gtb_spec (EEPROM.read e 0) 10); cbn [head]; lia.
Qed.

(** The scenario of the specification: A and B are pushed on an empty
    queue; the size is 2 and A is the oldest; after one removal B is
    the oldest and the size is 1. *)
Example fifo_scenario :
  size Scenario.queue_AB = 2 /\
  peekOldest Scenario.queue_AB = Some Scenario.eventA /\
  peekOldest (snd (popOldest Scenario.queue_AB)) = Some Scenario.eventB /\
  size (snd (popOldest Scenario.queue_AB)) = 1.
Proof. repeat split; vm_compute; reflexivity. Qed.

(** [push] never changes [head]. *)
Lemma push_keeps_head r s : head (snd (push r s)) = head s.
Proof. unfold push. destruct (isFull s); reflexivity. Qed.

(** C1, evaluated: an erased device is powered up, one event is
    pushed and the device is power-cycled.  [push] has written the
    count byte only, so [begin()] now loads the erased head byte:
    [count] is 1 and [head] is 255, outside [0 .. MAX_ENTRIES - 1],
    and a further [push] leaves it there. *)
Theorem head_out_of_range_after_power_cycle :
  EEPROM.read Scenario.erased 0 = 255 /\
  head (boot Scenario.erased) = 0 /\
  EEPROM.read (eeprom Scenario.first_run) 0 = 1 /\
  EEPROM.read (eeprom Scenario.first_run) 1 = 255 /\
  count Scenario.second_run = 1 /\
  head Scenario.second_run = 255 /\
  head (run [Push Scenario.eventB] Scenario.second_run) = 255 /\
  peekOldest Scenario.first_run = Some Scenario.eventA /\
  peekOldest Scenario.second_run
  = Some {| duration_ms := 4294967295; ts := 4294967295 |}.
Proof. repeat split; vm_compute; reflexivity. Qed.

(** *** Cells written per operation *)

Lemma wear_push r s : 0 <= wear s (snd (push r s)) <= 9.
Proof.
  unfold wear, push.
  destruct (isFull s); cbn [snd eeprom]; [lia | ].
  pose proof (writes_writeReading
                (u8 ((head s + count s) mod MAX_ENTRIES)) r (eeprom s)).
  pose proof (writes_update_bounds
                (writeReadingToEEPROM (u8 ((head s + count s) mod MAX_ENTRIES)) r (eeprom s))
                0 (u8 (count s + 1))).
  lia.
Qed.

Lemma wear_popOldest s : 0 <= wear s (snd (popOldest s)) <= 2.
Proof.
  unfold wear, popOldest.
  destruct (isEmpty s); cbn [snd eeprom]; [lia | ].
  set (h := u8 ((head s + 1) mod MAX_ENTRIES)).
  set (c := if count s =? 0 then count s else u8 (count s - 1)).
  pose proof (writes_update_bounds (eeprom s) 1 h).
  pose proof (writes_update_bounds (EEPROM.update (eeprom s) 1 h) 0 c).
  lia.
Qed.

(** C5 as stated fails: on a zeroed device the push of [event01]
    writes nine cells (eight of the entry and the count byte), its
    removal writes two, eleven in all. *)
Lemma lifecycle_writes_eleven_cells :
  fst (push Scenario.event01 Scenario.cycle_start) = true /\
  fst (popOldest Scenario.cycle_pushed) = true /\
  wear Scenario.cycle_start Scenario.cycle_pushed = 9 /\
  wear Scenario.cycle_pushed Scenario.cycle_popped = 2 /\
  wear Scenario.cycle_start Scenario.cycle_popped = 11.
Proof. repeat split; vm_compute; reflexivity. Qed.

(** C5, amended: [update] writes a cell exactly when the byte
    differs; a push writes at most 9 cells (eight of the entry and
    the count byte), a removal at most 2, so the push and the removal
    of one event write at most 11 cells. *)
Theorem lifecycle_wear_bound r s s' :
  (forall e a v,
      EEPROM.writes (EEPROM.update e a v)
      = EEPROM.writes e + (if EEPROM.read e a =? u8 v then 0 else 1)) /\
  0 <= wear s (snd (push r s)) <= 9 /\
  0 <= wear s' (snd (popOldest s')) <= 2 /\
  wear s (snd (push r s)) + wear s' (snd (popOldest s')) <= 11.
Proof.
  pose proof (wear_push r s). pose proof (wear_popOldest s').
  repeat split; try lia. apply writes_update.
Qed.

End QueueClaims.

(** * Properties of the modem link *)

Section Link.

Import EEPROMStorage ESP01Driver.

Lemma ESPState_eqb_eq a b : ESPState.eqb a b = true <-> a = b.
Proof. destruct a, b; cbn; split; intros H; try reflexivity; discriminate. Qed.

(** *** The send request *)

(** C6, evaluated: after the modem has reported its address during a
    send, the state is [READY] while the first send is still waiting
    for its connect confirmation (sub-state 1, payload of event A
    pending).  [isReadyForSend] is documented as "wifi connected & not
    busy", yet a second request is accepted here and replaces the
    pending payload. *)
Lemma send_accepted_while_pending :
  espState (Scenario.rejoined Scenario.queue_AB) = ESPState.READY /\
  pendingSendState (Scenario.rejoined Scenario.queue_AB) = 1 /\
  pendingPayload (Scenario.rejoined Scenario.queue_AB) = request Scenario.eventA /\
  fst (sendReadingToThingSpeak Scenario.eventB (Scenario.rejoined Scenario.queue_AB))
  = true /\
  pendingPayload
    (snd (sendReadingToThingSpeak Scenario.eventB (Scenario.rejoined Scenario.queue_AB)))
  = request Scenario.eventB.
Proof. repeat split; vm_compute; reflexivity. Qed.

(** What the request tests: [espState] alone.  In state [READY] it
    issues the start-connection command, records the payload with
    sub-state 1 and moves to [SENDING], leaving the queue alone; in
    every other state it returns [false] and changes nothing.  The
    send sub-state and [delayingForResponse] are never read. *)
Theorem send_request_gated_by_state r d :
  fst (sendReadingToThingSpeak r d) = ESPState.eqb (espState d) ESPState.READY /\
  (if ESPState.eqb (espState d) ESPState.READY
   then
     let d' := snd (sendReadingToThingSpeak r d) in
     espState d' = ESPState.SENDING /\
     pendingPayload d' = request r /\
     pendingSendState d' = 1 /\
     ss d' = (ss d ++ [CIPSTART])%list /\
     storage d' = storage d
   else sendReadingToThingSpeak r d = (false, d)).
Proof.
  unfold sendReadingToThingSpeak, isReadyForSend.
  destruct (ESPState.eqb (espState d) ESPState.READY); cbn [negb fst snd].
  - repeat split.
  - split; reflexivity.
Qed.

(** *** The response classifier *)

(** The source, check by check: the three state checks all act when
    they apply, then the first applicable send check acts and ends
    the handling of the line. *)
Lemma if_same (A : Type) (b : bool) (x : A) : (if b then x else x) = x.
Proof. destruct b; reflexivity. Qed.

(** The source, check by check: the three state checks all act when
    they apply, then the first applicable send check acts and ends
    the handling of the line. *)
Lemma handleResponse_table now line d :
  handleResponse now line d
  = first_applicable_only send_checks now line
      (every_applicable state_checks now line d).
Proof.
  unfold handleResponse. cbv zeta. rewrite !if_same.
  unfold every_applicable, state_checks. cbn [fold_left applicable action].
  match goal with
  | |- context [pendingSendState ?x =? 1] => generalize x; clear d; intros d
  end.
  unfold first_applicable_only, send_checks. cbn [find applicable].
  destruct ((found line "CONNECT" || found line "ALREADY CONNECT")
            && (pendingSendState d =? 1)); [reflexivity | ].
  destruct (WString.endsWith line ">" && (pendingSendState d =? 2)); [reflexivity | ].
  destruct (found line "SEND OK" || found line "SEND FAIL"); [reflexivity | ].
  destruct (found line "CLOSED"); reflexivity.
Qed.

(** The state checks write [espState] and the console, nothing else. *)
Lemma state_checks_frame now line d :
  let d1 := every_applicable state_checks now line d in
  pendingSendState d1 = pendingSendState d /\
  pendingPayload d1 = pendingPayload d /\
  storage d1 = storage d /\
  ss d1 = ss d /\
  Status.lastSendOk (sysStatus d1) = Status.lastSendOk (sysStatus d) /\
  Status.lastSendSuccessTime (sysStatus d1) = Status.lastSendSuccessTime (sysStatus d) /\
  Status.storedReadingsCount (sysStatus d1) = Status.storedReadingsCount (sysStatus d).
Proof.
  unfold every_applicable, state_checks. cbn [fold_left applicable action].
  destruct (found line "WIFI GOT IP"), (found line "ERROR"), (found line "DNS FAIL");
    repeat split.
Qed.

(** What the transmit-result check leaves behind. *)
Lemma transmit_result_clears now line d :
  let d' := action TransmitResult now line d in
  pendingPayload d' = "" /\ pendingSendState d' = 0 /\ espState d' = ESPState.READY.
Proof. repeat split. Qed.

(** C3 as stated fails: the driver waits for the transmit result
    with an empty queue attached; on [SEND OK] nothing is dequeued
    and neither success nor its time is recorded. *)
Lemma success_not_recorded_on_empty_queue :
  pendingSendState (Scenario.awaiting_result (boot Scenario.zeroed)) = 3 /\
  found "SEND OK" "SEND OK" = true /\
  Status.lastSendOk
    (sysStatus (handleResponse 400 "SEND OK"
                  (Scenario.awaiting_result (boot Scenario.zeroed)))) = false /\
  Status.lastSendSuccessTime
    (sysStatus (handleResponse 400 "SEND OK"
                  (Scenario.awaiting_result (boot Scenario.zeroed)))) = 0.
Proof. repeat split; vm_compute; reflexivity. Qed.

(** C3, amended: a line containing [SEND OK], handled in sub-state 3
    (awaiting the transmit result), clears the pending payload and
    the sub-state and sets the state to [READY].  When a queue is
    attached and reports an entry, [popOldest] is applied to it once
    and succeeds, and the status record receives success, the time
    and the new size.  Otherwise the queue and the success fields of
    the status record stay as they were. *)
Theorem transmit_success_dequeues_once now line d :
  found line "SEND OK" = true ->
  pendingSendState d = 3 ->
  let d' := handleResponse now line d in
  pendingPayload d' = "" /\
  pendingSendState d' = 0 /\
  espState d' = ESPState.READY /\
  match storage d with
  | Some q =>
      if hasPending q
      then fst (popOldest q) = true /\
           storage d' = Some (snd (popOldest q)) /\
           Status.lastSendOk (sysStatus d') = true /\
           Status.lastSendSuccessTime (sysStatus d') = CInt.u32 now /\
           Status.storedReadingsCount (sysStatus d')
           = CInt.u8 (size (snd (popOldest q)))
      else storage d' = Some q /\
           Status.lastSendOk (sysStatus d') = Status.lastSendOk (sysStatus d) /\
           Status.lastSendSuccessTime (sysStatus d')
           = Status.lastSendSuccessTime (sysStatus d)
  | None =>
      storage d' = None /\
      Status.lastSendOk (sysStatus d') = Status.lastSendOk (sysStatus d) /\
      Status.lastSendSuccessTime (sysStatus d')
      = Status.lastSendSuccessTime (sysStatus d)
  end.
Proof.
  intros Hok Hsub. cbv zeta. rewrite handleResponse_table.
  destruct (state_checks_frame now line d) as (Fsub & _ & Fq & _ & Fok & Ftime & _).
  cbv zeta in *.
  revert Fsub Fq Fok Ftime.
  generalize (every_applicable state_checks now line d). intros d1 Fsub Fq Fok Ftime.
  unfold first_applicable_only, send_checks. cbn [find applicable].
  rewrite Fsub, Hsub, Hok. cbn [Z.eqb Pos.eqb andb orb].
  rewrite !Bool.andb_false_r.
  destruct (transmit_result_clears now line d1) as (E1 & E2 & E3).
  cbv zeta in *.
  repeat (split; [assumption | ]).
  cbn [action]. rewrite Hok. unfold clear_pending_ready, confirm_sent.
  cbn [storage Serial_println Serial_print with_pending with_status].
  rewrite Fq. destruct (storage d) as [q | ].
  - destruct (hasPending q) eqn:Hq; cbn [storage sysStatus with_storage with_status].
    + repeat split.
      unfold hasPending in Hq. unfold popOldest.
      destruct (isEmpty q); [discriminate | reflexivity].
    + cbn [Status.set_espState Status.lastSendOk Status.lastSendSuccessTime].
      repeat split; assumption.
  - cbn [Status.set_espState Status.lastSendOk Status.lastSendSuccessTime sysStatus].
    repeat split; assumption.
Qed.

Lemma transmit_success_dequeues_once_witness :
  found "SEND OK" "SEND OK" = true /\
  pendingSendState (Scenario.awaiting_result Scenario.queue_AB) = 3 /\
  pendingSendState
    (handleResponse 400 "SEND OK" (Scenario.awaiting_result Scenario.queue_AB)) = 0 /\
  espState
    (handleResponse 400 "SEND OK" (Scenario.awaiting_result Scenario.queue_AB))
  = ESPState.READY.
Proof.
  assert (H1 : found "SEND OK" "SEND OK" = true) by reflexivity.
  assert (H2 : pendingSendState (Scenario.awaiting_result Scenario.queue_AB) = 3)
    by reflexivity.
  destruct (transmit_success_dequeues_once 400 "SEND OK"
              (Scenario.awaiting_result Scenario.queue_AB) H1 H2)
    as (_ & E2 & E3 & _).
  split; [exact H1 | split; [exact H2 | split; [exact E2 | exact E3]]].
Defined.

(** C4 as stated fails, in three ways.  A line that holds both
    [SEND OK] and [SEND FAIL] is taken as a success: the oldest entry
    is dequeued and [peekOldest] answers the next one.  While the
    connect confirmation is awaited, a line that also holds [CONNECT]
    is taken by that check; while the prompt is awaited, a line that
    ends in [>] is taken by that check: in both cases the send goes
    on, the state is not [READY] and the payload is kept. *)
Lemma send_fail_line_taken_by_earlier_check :
  (found "SEND OK SEND FAIL" "SEND FAIL" = true /\
   pendingSendState (Scenario.awaiting_result Scenario.queue_AB) = 3 /\
   option_map peekOldest (storage (Scenario.awaiting_result Scenario.queue_AB))
   = Some (Some Scenario.eventA) /\
   option_map peekOldest
     (storage (handleResponse 400 "SEND OK SEND FAIL"
                 (Scenario.awaiting_result Scenario.queue_AB)))
   = Some (Some Scenario.eventB) /\
   Status.lastSendOk
     (sysStatus (handleResponse 400 "SEND OK SEND FAIL"
                   (Scenario.awaiting_result Scenario.queue_AB))) = true) /\
  (found "CONNECT SEND FAIL" "SEND FAIL" = true /\
   pendingSendState (Scenario.sending Scenario.queue_AB) = 1 /\
   pendingSendState
     (handleResponse 400 "CONNECT SEND FAIL" (Scenario.sending Scenario.queue_AB)) = 2 /\
   espState
     (handleResponse 400 "CONNECT SEND FAIL" (Scenario.sending Scenario.queue_AB))
   = ESPState.SENDING) /\
  (found "SEND FAIL>" "SEND FAIL" = true /\
   pendingSendState (Scenario.awaiting_prompt Scenario.queue_AB) = 2 /\
   pendingSendState
     (handleResponse 400 "SEND FAIL>" (Scenario.awaiting_prompt Scenario.queue_AB)) = 3 /\
   espState
     (handleResponse 400 "SEND FAIL>" (Scenario.awaiting_prompt Scenario.queue_AB))
   = ESPState.SENDING).
Proof. repeat split; vm_compute; reflexivity. Qed.

(** C4, amended: a line that contains [SEND FAIL] and not [SEND OK],
    and that neither the connect-confirmation check nor the prompt
    check takes, records the failure, clears the pending payload and
    the sub-state and sets the state to [READY]; the queue is not
    touched, so [peekOldest] answers as before. *)
Theorem transmit_failure_keeps_entry now line d :
  found line "SEND FAIL" = true ->
  found line "SEND OK" = false ->
  applicable ConnectConfirmation line d = false ->
  applicable SendPrompt line d = false ->
  let d' := handleResponse now line d in
  Status.lastSendOk (sysStatus d') = false /\
  pendingPayload d' = "" /\
  pendingSendState d' = 0 /\
  espState d' = ESPState.READY /\
  storage d' = storage d /\
  option_map peekOldest (storage d') = option_map peekOldest (storage d).
Proof.
  intros Hfail Hok Hconn Hprompt. cbv zeta. rewrite handleResponse_table.
  destruct (state_checks_frame now line d) as (Fsub & _ & Fq & _).
  cbv zeta in *. cbn [applicable] in Hconn, Hprompt.
  revert Fsub Fq.
  generalize (every_applicable state_checks now line d). intros d1 Fsub Fq.
  unfold first_applicable_only, send_checks. cbn [find applicable].
  rewrite Fsub, Hconn, Hprompt, Hok, Hfail. cbn [orb].
  cbn [action]. rewrite Hok. unfold clear_pending_ready.
  cbn [storage sysStatus pendingPayload pendingSendState espState
       Serial_println Serial_print with_pending with_status
       Status.lastSendOk Status.set_espState Status.set_lastSendOk Status.espState].
  rewrite Fq. repeat split.
Qed.

Lemma transmit_failure_keeps_entry_witness :
  Status.lastSendOk
    (sysStatus (handleResponse 400 "SEND FAIL"
                  (Scenario.awaiting_result Scenario.queue_AB))) = false /\
  espState (handleResponse 400 "SEND FAIL" (Scenario.awaiting_result Scenario.queue_AB))
  = ESPState.READY /\
  option_map peekOldest
    (storage (handleResponse 400 "SEND FAIL"
                (Scenario.awaiting_result Scenario.queue_AB)))
  = Some (Some Scenario.eventA).
Proof.
  destruct (transmit_failure_keeps_entry 400 "SEND FAIL"
              (Scenario.awaiting_result Scenario.queue_AB)
              eq_refl eq_refl eq_refl eq_refl)
    as (E1 & _ & _ & E4 & _ & E6).
  split; [exact E1 | split; [exact E4 | rewrite E6; reflexivity]].
Defined.

(** C7 as stated fails: while the connect confirmation is awaited,
    the line [ERROR CONNECT] matches the generic-error check and the
    connect-confirmation check, and both act: the state becomes
    [ERROR] and the send advances to sub-state 2.  Had only the first
    applicable check acted, the sub-state would still be 1. *)
Lemma error_and_connect_both_act :
  matching check_order "ERROR CONNECT" (Scenario.sending Scenario.queue_AB)
  = [GenericError; ConnectConfirmation] /\
  pendingSendState (Scenario.sending Scenario.queue_AB) = 1 /\
  espState (handleResponse 400 "ERROR CONNECT" (Scenario.sending Scenario.queue_AB))
  = ESPState.ERROR /\
  pendingSendState
    (handleResponse 400 "ERROR CONNECT" (Scenario.sending Scenario.queue_AB)) = 2 /\
  pendingSendState
    (first_applicable_only check_order 400 "ERROR CONNECT"
       (Scenario.sending Scenario.queue_AB)) = 1 /\
  handleResponse 400 "ERROR CONNECT" (Scenario.sending Scenario.queue_AB)
  <> first_applicable_only check_order 400 "ERROR CONNECT"
       (Scenario.sending Scenario.queue_AB).
Proof.
  repeat split; try (vm_compute; reflexivity).
  intros E. apply (f_equal pendingSendState) in E. vm_compute in E. discriminate.
Qed.

(** C7, amended: the checks for the address confirmation, the
    generic error and the DNS error each act when they apply, in that
    order, and touch neither the send sub-state, the payload, the
    queue nor the modem line.  Of the four checks that follow
    (connect confirmation, prompt, transmit result, remote close)
    only the first applicable one acts. *)
Theorem classifier_in_two_stages now line d :
  handleResponse now line d
  = first_applicable_only send_checks now line
      (every_applicable state_checks now line d) /\
  pendingSendState (every_applicable state_checks now line d) = pendingSendState d /\
  pendingPayload (every_applicable state_checks now line d) = pendingPayload d /\
  storage (every_applicable state_checks now line d) = storage d /\
  ss (every_applicable state_checks now line d) = ss d.
Proof.
  destruct (state_checks_frame now line d) as (F1 & F2 & F3 & F4 & _).
  split; [apply handleResponse_table | repeat split; assumption].
Qed.

End Link.

(** * Further properties of the ring queue *)

Section Entries.

Import CInt EEPROMStorage Listing.

Lemma mod10_range x : 0 <= x mod MAX_ENTRIES < 10.
Proof. unfold MAX_ENTRIES. apply Z.mod_pos_bound. lia. Qed.

Lemma slot_of_range s i : 0 <= slot_of s i < 10.
Proof.
  unfold slot_of. pose proof (mod10_range (head s + i)).
  rewrite u8_small; lia.
Qed.

Lemma slot_of_eq s i : slot_of s i = (head s + i) mod 10.
Proof.
  unfold slot_of. pose proof (mod10_range (head s + i)).
  unfold MAX_ENTRIES in *. rewrite u8_small; lia.
Qed.

(** A reading depends on the eight cells of its slot only. *)
Lemma readReading_agree w i e e' :
  (forall k, 0 <= k < 8 -> EEPROM.read e' (slot_addr i + k) = EEPROM.read e (slot_addr i + k)) ->
  readReadingFromEEPROM_w w i e' = readReadingFromEEPROM_w w i e.
Proof.
  intros H. unfold readReadingFromEEPROM_w. cbv zeta.
  rewrite <- (Z.add_0_r (slot_addr i)) at 1 9.
  rewrite !H by lia. rewrite Z.add_0_r. reflexivity.
Qed.

(** The header cells lie outside every slot. *)
Lemma read_header_update_slot e a v i k :
  0 <= a < 16 -> 0 <= i < 256 -> 0 <= k < 8 ->
  EEPROM.read (EEPROM.update e a v) (slot_addr i + k) = EEPROM.read e (slot_addr i + k).
Proof.
  intros Ha Hi Hk. rewrite read_update, slot_addr_small by exact Hi.
  destruct (Z.eqb_spec (16 + 8 * i + k) a); [lia | reflexivity].
Qed.

Section Width.

Variable w : Z.
Variable bound : Z.
Hypothesis assemble_bytes :
  forall v, 0 <= v < bound ->
    assemble w (stored_byte v 0) (stored_byte v 8) (stored_byte v 16) (stored_byte v 24) = v.

(** The slot just written reads back as the reading. *)
Lemma read_written_slot i r e :
  0 <= duration_ms r < bound -> 0 <= ts r < bound ->
  readReadingFromEEPROM_w w i (writeReadingToEEPROM i r e) = r.
Proof.
  intros Hd Ht. unfold readReadingFromEEPROM_w. cbv zeta.
  destruct (read_writeReading_slot i r e) as (E0 & E1 & E2 & E3 & E4 & E5 & E6 & E7).
  cbv zeta in *.
  rewrite E0, E1, E2, E3, E4, E5, E6, E7.
  rewrite !assemble_bytes by assumption.
  now destruct r.
Qed.

Lemma readings_push_w r s :
  0 <= count s < MAX_ENTRIES ->
  0 <= duration_ms r < bound ->
  0 <= ts r < bound ->
  fst (push r s) = true /\
  readings_w w (snd (push r s)) = (readings_w w s ++ [r])%list.
Proof.
  unfold MAX_ENTRIES. intros Hc Hd Ht.
  unfold push, isFull, MAX_ENTRIES.
  destruct (Z.geb_spec (count s) 10) as [Hge | _]; [lia | ].
  cbn [fst snd]. split; [reflexivity | ].
  unfold readings_w. cbn [count head eeprom].
  rewrite (u8_small (count s + 1)) by lia.
  replace (Z.to_nat (count s + 1)) with (S (Z.to_nat (count s))) by lia.
  rewrite seq_S, map_app. cbn [map Nat.add]. f_equal.
  - apply map_ext_in. intros i Hi. apply in_seq in Hi.
    unfold slot_of at 1 2. cbn [head].
    fold (slot_of s (Z.of_nat i)).
    set (tailIndex := u8 ((head s + count s) mod 10)).
    assert (Htail : tailIndex = (head s + count s) mod 10).
    { unfold tailIndex. pose proof (mod10_range (head s + count s)).
      unfold MAX_ENTRIES in *. apply u8_small. lia. }
    pose proof (slot_of_eq s (Z.of_nat i)) as Hslot.
    pose proof (slot_of_range s (Z.of_nat i)) as Hr.
    assert (Hne : slot_of s (Z.of_nat i) <> tailIndex).
    { rewrite Hslot, Htail. intros E.
      assert (Hi' : 0 <= Z.of_nat i < count s) by lia.
      revert E Hi' Hc. generalize (Z.of_nat i) (head s) (count s). clear.
      intros i h c E Hi Hc. Z.div_mod_to_equations. lia. }
    assert (Htr : 0 <= tailIndex < 10).
    { rewrite Htail. apply mod10_range. }
    apply readReading_agree. intros k Hk.
    rewrite read_header_update_slot by lia.
    apply read_writeReading_other.
    rewrite !slot_addr_small by lia. lia.
  - f_equal.
    replace (slot_of {| count := count s + 1; head := head s; eeprom := _ |}
               (Z.of_nat (0 + Z.to_nat (count s))))
      with (u8 ((head s + count s) mod 10)).
    2:{ unfold slot_of, MAX_ENTRIES. cbn [head]. do 3 f_equal. lia. }
    set (tailIndex := u8 ((head s + count s) mod 10)).
    assert (Htr : 0 <= tailIndex < 256) by apply u8_range.
    rewrite <- (read_written_slot tailIndex r (eeprom s) Hd Ht) at 2.
    apply readReading_agree. intros k Hk.
    apply read_header_update_slot; lia.
Qed.

Lemma readings_pop_w s :
  0 < count s < 256 ->
  fst (popOldest s) = true /\
  readings_w w (snd (popOldest s)) = tl (readings_w w s).
Proof.
  intros Hc. unfold popOldest, isEmpty.
  destruct (Z.eqb_spec (count s) 0) as [E | _]; [lia | ].
  cbn [fst snd]. split; [reflexivity | ].
  unfold readings_w. cbn [count head eeprom].
  rewrite (u8_small (count s - 1)) by lia.
  replace (Z.to_nat (count s)) with (S (Z.to_nat (count s - 1))) by lia.
  cbn [seq map tl]. rewrite <- seq_shift, map_map.
  apply map_ext. intros i.
  assert (Hslot : slot_of {| count := count s - 1;
                             head := u8 ((head s + 1) mod MAX_ENTRIES);
                             eeprom := EEPROM.update
                                         (EEPROM.update (eeprom s) 1
                                            (u8 ((head s + 1) mod MAX_ENTRIES)))
                                         0 (count s - 1) |} (Z.of_nat i)
                  = slot_of s (Z.of_nat (S i))).
  { rewrite !slot_of_eq. cbn [head].
    pose proof (mod10_range (head s + 1)). unfold MAX_ENTRIES in *.
    rewrite u8_small by lia.
    rewrite Z.add_mod_idemp_l by lia. f_equal. lia. }
  rewrite Hslot.
  pose proof (slot_of_range s (Z.of_nat (S i))).
  apply readReading_agree. intros k Hk.
  rewrite !read_header_update_slot by lia. reflexivity.
Qed.

Lemma peek_is_first_w s :
  0 <= head s < MAX_ENTRIES -> 0 <= count s ->
  peekOldest_w w s = hd_error (readings_w w s).
Proof.
  unfold MAX_ENTRIES. intros Hh Hc. unfold peekOldest_w, isEmpty, readings_w.
  destruct (Z.eqb_spec (count s) 0) as [E | E].
  - rewrite E. reflexivity.
  - replace (Z.to_nat (count s)) with (S (Z.to_nat (count s - 1))) by lia.
    cbn [seq map hd_error]. do 2 f_equal.
    rewrite slot_of_eq. cbn [Z.of_nat]. rewrite Z.add_0_r, Z.mod_small; lia.
Qed.

End Width.

End Entries.

Section QueueExtras.

Import CInt EEPROMStorage Listing.

(** X1: on a queue that is not full, [push] of a reading whose fields
    are below [2^15] succeeds and the readings listed by [printAll]
    are the former ones, untouched and in the same order, followed by
    the new one; this holds wherever [head] points. *)
Theorem push_appends_to_listing r s :
  0 <= count s < MAX_ENTRIES ->
  0 <= duration_ms r < 2 ^ 15 ->
  0 <= ts r < 2 ^ 15 ->
  fst (push r s) = true /\
  readings (snd (push r s)) = (readings s ++ [r])%list.
Proof. apply readings_push_w. exact assemble_16_small. Qed.

Lemma push_appends_to_listing_witness :
  readings (snd (push Scenario.eventB (snd (push Scenario.eventA Scenario.cycle_start))))
  = (readings (snd (push Scenario.eventA Scenario.cycle_start)) ++ [Scenario.eventB])%list.
Proof.
  apply (push_appends_to_listing Scenario.eventB
           (snd (push Scenario.eventA Scenario.cycle_start)));
    vm_compute; split; congruence.
Defined.

(** The same with an [int] of 32 bits, for every 32-bit reading. *)
Lemma push_appends_to_listing_int32 r s :
  0 <= count s < MAX_ENTRIES ->
  0 <= duration_ms r < 2 ^ 32 ->
  0 <= ts r < 2 ^ 32 ->
  fst (push r s) = true /\
  readings_w 32 (snd (push r s)) = (readings_w 32 s ++ [r])%list.
Proof. apply readings_push_w. exact assemble_32. Qed.

(** X2: on a queue that is not empty and whose head is in range,
    [peekOldest] answers the first reading of the listing, [popOldest]
    succeeds and removes exactly that one, and [peekOldest] then
    answers the next. *)
Theorem pop_drops_first_of_listing s :
  0 <= head s < MAX_ENTRIES ->
  0 < count s < 256 ->
  peekOldest s = hd_error (readings s) /\
  fst (popOldest s) = true /\
  readings (snd (popOldest s)) = tl (readings s) /\
  peekOldest (snd (popOldest s)) = hd_error (tl (readings s)).
Proof.
  intros Hh Hc.
  destruct (readings_pop_w INT_BITS s Hc) as (Hok & Hpop).
  split; [apply peek_is_first_w; lia | ].
  split; [exact Hok | ]. split; [exact Hpop | ].
  unfold readings in *. rewrite <- Hpop.
  apply peek_is_first_w.
  - pose proof (step_head_bounds s Pop Hh) as H. exact H.
  - unfold popOldest, isEmpty.
    destruct (Z.eqb_spec (count s) 0); cbn [snd count]; [lia | ].
    apply u8_range.
Qed.

Lemma pop_drops_first_of_listing_witness :
  peekOldest Scenario.queue_AB = Some Scenario.eventA /\
  peekOldest (snd (popOldest Scenario.queue_AB)) = Some Scenario.eventB.
Proof.
  destruct (pop_drops_first_of_listing Scenario.queue_AB) as (H1 & _ & _ & H4).
  - vm_compute. split; congruence.
  - vm_compute. split; congruence.
  - split; [rewrite H1 | rewrite H4]; reflexivity.
Defined.

(** X3: pushes beyond the capacity are dropped: after [n] pushes on
    a queue holding [count] entries the queue holds
    [min (count + n) 10]. *)
Theorem pushes_saturate_at_capacity rs s :
  0 <= count s <= MAX_ENTRIES ->
  count (run (map Push rs) s) = Z.min (count s + Z.of_nat (length rs)) MAX_ENTRIES.
Proof.
  unfold MAX_ENTRIES, run. revert s.
  induction rs as [ | r rs IH]; intros s Hc; cbn [map fold_left length].
  - lia.
  - rewrite IH.
    + unfold step, push, isFull, MAX_ENTRIES.
      destruct (Z.geb_spec (count s) 10); cbn [snd count]; [lia | ].
      rewrite u8_small; lia.
    + apply (step_count_bounds s (Push r)). exact Hc.
Qed.

Lemma pushes_saturate_at_capacity_witness :
  count (run (map Push (repeat Scenario.eventA 12)) Scenario.cycle_start) = 10.
Proof.
  rewrite (pushes_saturate_at_capacity (repeat Scenario.eventA 12) Scenario.cycle_start).
  - reflexivity.
  - vm_compute. split; congruence.
Defined.

(** *** What survives a power cycle *)

Lemma sync_spec s :
  header_synced s = true
  <-> EEPROM.read (eeprom s) 0 = count s /\ EEPROM.read (eeprom s) 1 = head s.
Proof.
  unfold header_synced. rewrite Bool.andb_true_iff, !Z.eqb_eq. reflexivity.
Qed.

Lemma boot_of_synced s :
  header_synced s = true -> count s <= MAX_ENTRIES -> boot (eeprom s) = s.
Proof.
  intros Hs Hc. apply sync_spec in Hs. destruct Hs as (H0 & H1).
  unfold boot, begin, fresh. cbn [eeprom]. rewrite H0, H1.
  destruct (Z.gtb_spec (count s) MAX_ENTRIES); [lia | now destruct s].
Qed.

Lemma step_keeps_sync s o :
  header_synced s = true -> 0 <= count s <= MAX_ENTRIES ->
  header_synced (step s o) = true.
Proof.
  unfold MAX_ENTRIES. intros Hs Hc.
  destruct o as [r | ]; unfold step, push, popOldest, isFull, isEmpty, MAX_ENTRIES.
  - destruct (Z.geb_spec (count s) 10); cbn [snd]; [exact Hs | ].
    apply sync_spec in Hs. destruct Hs as (H0 & H1).
    apply sync_spec. cbn [count head eeprom].
    rewrite !read_update. cbn [Z.eqb]. split; [apply u8_idem | ].
    rewrite read_writeReading_other; [exact H1 | ].
    left. set (tailIndex := u8 ((head s + count s) mod 10)).
    assert (Ht : 0 <= tailIndex < 10).
    { unfold tailIndex. pose proof (Z.mod_pos_bound (head s + count s) 10).
      rewrite u8_small; lia. }
    rewrite slot_addr_small by lia. lia.
  - destruct (Z.eqb_spec (count s) 0); cbn [snd]; [exact Hs | ].
    apply sync_spec. cbn [count head eeprom].
    rewrite !read_update. cbn [Z.eqb]. split; apply u8_idem.
Qed.

(** X4: once the header in the device agrees with the one in memory,
    it does so after every sequence of pushes and removals, and a
    power cycle at that point ([begin()] on the device) restores
    exactly the state that was left: count, head and entries. *)
Theorem synced_queue_survives_power_cycle ops s :
  header_synced s = true ->
  0 <= count s <= MAX_ENTRIES ->
  header_synced (run ops s) = true /\ boot (eeprom (run ops s)) = run ops s.
Proof.
  intros Hs Hc.
  assert (H : header_synced (run ops s) = true /\ 0 <= count (run ops s) <= MAX_ENTRIES).
  { unfold run. revert s Hs Hc.
    induction ops as [ | o ops IH]; intros s Hs Hc; cbn [fold_left].
    - split; assumption.
    - apply IH; [apply step_keeps_sync | apply step_count_bounds]; assumption. }
  destruct H as (H1 & H2). split; [exact H1 | apply boot_of_synced; [exact H1 | lia]].
Qed.

Lemma synced_queue_survives_power_cycle_witness :
  boot (eeprom (run [Push Scenario.eventA; Push Scenario.eventB; Pop] Scenario.cycle_start))
  = run [Push Scenario.eventA; Push Scenario.eventB; Pop] Scenario.cycle_start.
Proof.
  apply (synced_queue_survives_power_cycle
           [Push Scenario.eventA; Push Scenario.eventB; Pop] Scenario.cycle_start).
  - reflexivity.
  - vm_compute. split; congruence.
Defined.

(** X5: a removal that succeeds writes both header bytes, so the
    header agrees afterwards whatever the device held before, the head
    is in range, and a power cycle restores the state. *)
Theorem pop_repairs_header s :
  0 < count s <= MAX_ENTRIES ->
  header_synced (snd (popOldest s)) = true /\
  0 <= head (snd (popOldest s)) < MAX_ENTRIES /\
  boot (eeprom (snd (popOldest s))) = snd (popOldest s).
Proof.
  unfold MAX_ENTRIES. intros Hc.
  assert (Hs : header_synced (snd (popOldest s)) = true).
  { unfold popOldest, isEmpty.
    destruct (Z.eqb_spec (count s) 0); [lia | ]. cbn [snd].
    apply sync_spec. cbn [count head eeprom].
    rewrite !read_update. cbn [Z.eqb]. split; apply u8_idem. }
  split; [exact Hs | ]. split.
  - unfold popOldest, isEmpty, MAX_ENTRIES.
    destruct (Z.eqb_spec (count s) 0); [lia | ]. cbn [snd head].
    pose proof (Z.mod_pos_bound (head s + 1) 10). rewrite u8_small; lia.
  - apply boot_of_synced; [exact Hs | ].
    unfold popOldest, isEmpty, MAX_ENTRIES.
    destruct (Z.eqb_spec (count s) 0); [lia | ]. cbn [snd count].
    rewrite u8_small; lia.
Qed.

Lemma pop_repairs_header_witness :
  header_synced Scenario.first_run = false /\
  header_synced (snd (popOldest Scenario.first_run)) = true /\
  head (snd (popOldest Scenario.first_run)) = 1.
Proof.
  destruct (pop_repairs_header Scenario.first_run) as (H1 & _ & _).
  - vm_compute. split; congruence.
  - split; [reflexivity | split; [exact H1 | reflexivity]].
Defined.

(** X6: writing a reading into a slot that already holds it changes
    nothing: no cell is written a second time. *)
Theorem rewrite_same_reading_is_free i r e :
  writeReadingToEEPROM i r (writeReadingToEEPROM i r e) = writeReadingToEEPROM i r e.
Proof.
  destruct (read_writeReading_slot i r e) as (E0 & E1 & E2 & E3 & E4 & E5 & E6 & E7).
  cbv zeta in *.
  set (e1 := writeReadingToEEPROM i r e) in *.
  unfold writeReadingToEEPROM at 1. cbv zeta.
  assert (U : forall a v, EEPROM.read e1 a = u8 v -> EEPROM.update e1 a v = e1).
  { intros a v H. unfold EEPROM.update. now rewrite H, Z.eqb_refl. }
  unfold stored_byte in *.
  rewrite Z.add_0_r.
  rewrite (U _ _ E0), (U _ _ E1), (U _ _ E2), (U _ _ E3),
    (U _ _ E4), (U _ _ E5), (U _ _ E6), (U _ _ E7).
  reflexivity.
Qed.

End QueueExtras.

(** * Further properties of the modem link *)

Section Substrings.

Import ESP01Driver.

Lemma substring_empty k l : substring k l "" = "".
Proof. destruct k, l; reflexivity. Qed.

Lemma substring_of_prefix s : forall k l n,
  (k + l <= n)%nat -> substring k l (substring 0 n s) = substring k l s.
Proof.
  induction s as [ | c s IH]; intros k l n H.
  - now rewrite (substring_empty 0 n).
  - destruct n as [ | n].
    + assert (k = 0%nat) by lia. assert (l = 0%nat) by lia. subst. reflexivity.
    + cbn [substring]. destruct k as [ | k].
      * destruct l as [ | l]; [reflexivity | ].
        cbn [substring]. f_equal. apply IH. lia.
      * cbn [substring]. apply IH. lia.
Qed.

Lemma substring_of_substring s : forall m k l n,
  (k + l <= n)%nat -> substring k l (substring m n s) = substring (m + k) l s.
Proof.
  induction s as [ | c s IH]; intros m k l n H.
  - now rewrite !substring_empty.
  - destruct m as [ | m].
    + now apply substring_of_prefix.
    + cbn [substring Nat.add]. now apply IH.
Qed.

(** A line that holds [outer] holds every text that [outer] holds. *)
Lemma found_inner line outer inner k :
  inner <> "" ->
  (k + String.length inner <= String.length outer)%nat ->
  substring k (String.length inner) outer = inner ->
  found line outer = true -> found line inner = true.
Proof.
  intros Hne Hlen Hsub. unfold found, WString.indexOf.
  destruct (index 0 outer line) as [n | ] eqn:E1; [intros _ | discriminate].
  apply index_correct1 in E1.
  destruct (index 0 inner line) as [n' | ] eqn:E2.
  - apply Z.geb_le. lia.
  - exfalso.
    apply (index_correct3 0 (n + k) inner line E2 Hne (Nat.le_0_l _)).
    rewrite <- (substring_of_substring line n k (String.length inner)
                  (String.length outer) Hlen).
    now rewrite E1.
Qed.

End Substrings.

Section LinkExtras.

Import EEPROMStorage ESP01Driver.

Lemma state_checks_espState now line d :
  let d1 := every_applicable state_checks now line d in
  espState d1 = espState d \/ espState d1 = ESPState.READY \/ espState d1 = ESPState.ERROR.
Proof.
  unfold every_applicable, state_checks. cbn [fold_left applicable action].
  destruct (found line "WIFI GOT IP"), (found line "ERROR"), (found line "DNS FAIL");
    cbn; auto.
Qed.

Lemma send_stage_cases now line d :
  let d' := first_applicable_only send_checks now line d in
  (applicable ConnectConfirmation line d = true /\ d' = action ConnectConfirmation now line d)
  \/ (applicable ConnectConfirmation line d = false /\
      applicable SendPrompt line d = true /\ d' = action SendPrompt now line d)
  \/ (applicable ConnectConfirmation line d = false /\
      applicable SendPrompt line d = false /\
      applicable TransmitResult line d = true /\ d' = action TransmitResult now line d)
  \/ (applicable ConnectConfirmation line d = false /\
      applicable SendPrompt line d = false /\
      applicable TransmitResult line d = false /\
      applicable RemoteClose line d = true /\ d' = action RemoteClose now line d)
  \/ (applicable ConnectConfirmation line d = false /\
      applicable SendPrompt line d = false /\
      applicable TransmitResult line d = false /\
      applicable RemoteClose line d = false /\ d' = d).
Proof.
  unfold first_applicable_only, send_checks. cbn [find].
  destruct (applicable ConnectConfirmation line d); [now left | right].
  destruct (applicable SendPrompt line d); [now left | right].
  destruct (applicable TransmitResult line d); [now left | right].
  destruct (applicable RemoteClose line d); [now left | now right].
Qed.

(** The guards of the send checks read the line and the sub-state only. *)
Lemma applicable_after_state_checks c now line d :
  In c send_checks ->
  applicable c line (every_applicable state_checks now line d) = applicable c line d.
Proof.
  intros Hc. destruct (state_checks_frame now line d) as (F & _). cbv zeta in F.
  destruct c; cbn [applicable]; rewrite ?F; reflexivity.
Qed.

(** X7: whatever the line, [handleResponse] leaves the modem state
    as it was or sets it to [READY] or [ERROR]: it never sets [OFF],
    [BOOTING] or [SENDING]. *)
Theorem handleResponse_state_range now line d :
  espState (handleResponse now line d) = espState d \/
  espState (handleResponse now line d) = ESPState.READY \/
  espState (handleResponse now line d) = ESPState.ERROR.
Proof.
  rewrite handleResponse_table.
  pose proof (state_checks_espState now line d) as H1. cbv zeta in H1.
  destruct (send_stage_cases now line (every_applicable state_checks now line d))
    as [(_ & E) | [(_ & _ & E) | [(_ & _ & _ & E) | [(_ & _ & _ & _ & E) | (_ & _ & _ & _ & E)]]]];
    cbv zeta in E; rewrite E; clear E.
  - exact H1.
  - exact H1.
  - right; left. reflexivity.
  - right; left. reflexivity.
  - exact H1.
Qed.

(** Without [SEND OK] on the line the queue is kept. *)
Lemma storage_kept_without_send_ok now line d :
  found line "SEND OK" = false ->
  storage (handleResponse now line d) = storage d.
Proof.
  intros Hok. rewrite handleResponse_table.
  destruct (state_checks_frame now line d) as (_ & _ & Fq & _). cbv zeta in Fq.
  rewrite <- Fq. generalize (every_applicable state_checks now line d). intros d1.
  destruct (send_stage_cases now line d1)
    as [(_ & E) | [(_ & _ & E) | [(_ & _ & _ & E) | [(_ & _ & _ & _ & E) | (_ & _ & _ & _ & E)]]]];
    cbv zeta in E; rewrite E; clear E; try reflexivity.
  cbn [action]. rewrite Hok. reflexivity.
Qed.

(** X8: only a line that contains [SEND OK] can change the queue. *)
Theorem queue_kept_without_send_ok now line d :
  found line "SEND OK" = false ->
  storage (handleResponse now line d) = storage d.
Proof. apply storage_kept_without_send_ok. Qed.

Lemma queue_kept_without_send_ok_witness :
  storage (handleResponse 400 "CLOSED" (Scenario.awaiting_result Scenario.queue_AB))
  = storage (Scenario.awaiting_result Scenario.queue_AB).
Proof.
  apply (queue_kept_without_send_ok 400 "CLOSED"
           (Scenario.awaiting_result Scenario.queue_AB)).
  reflexivity.
Defined.

(** What a line containing [SEND OK] does when no earlier send check
    takes it. *)
Lemma send_ok_untaken now line d q :
  found line "SEND OK" = true ->
  applicable ConnectConfirmation line d = false ->
  applicable SendPrompt line d = false ->
  storage d = Some q ->
  hasPending q = true ->
  storage (handleResponse now line d) = Some (snd (popOldest q)) /\
  pendingSendState (handleResponse now line d) = 0 /\
  pendingPayload (handleResponse now line d) = "" /\
  espState (handleResponse now line d) = ESPState.READY /\
  sysStatus (handleResponse now line d)
  = Status.set_espState ESPState.READY
      (Status.record_success (size (snd (popOldest q))) now
         (sysStatus (every_applicable state_checks now line d))) /\
  ss (handleResponse now line d) = ss d.
Proof.
  intros Hok Hc Hp Hq Hpend. rewrite handleResponse_table.
  destruct (state_checks_frame now line d) as (_ & _ & Fq & Fss & _). cbv zeta in *.
  rewrite <- (applicable_after_state_checks ConnectConfirmation now line d) in Hc
    by (cbn; auto).
  rewrite <- (applicable_after_state_checks SendPrompt now line d) in Hp
    by (cbn; auto).
  rewrite <- Fq in Hq. rewrite <- Fss.
  revert Hc Hp Hq. generalize (every_applicable state_checks now line d). intros d1 Hc Hp Hq.
  unfold first_applicable_only, send_checks. cbn [find].
  rewrite Hc, Hp. cbn [applicable]. rewrite Hok. cbn [orb action]. rewrite Hok.
  unfold clear_pending_ready, confirm_sent.
  cbn [storage Serial_println Serial_print]. rewrite Hq, Hpend.
  repeat split.
Qed.

(** X9: a line containing [SEND OK] is honoured when no send is
    pending (sub-state 0): the oldest entry of a non-empty queue is
    removed all the same. *)
Theorem stray_send_ok_dequeues now line d q :
  pendingSendState d = 0 ->
  found line "SEND OK" = true ->
  storage d = Some q ->
  hasPending q = true ->
  storage (handleResponse now line d) = Some (snd (popOldest q)) /\
  pendingSendState (handleResponse now line d) = 0.
Proof.
  intros Hsub Hok Hq Hpend.
  destruct (send_ok_untaken now line d q Hok) as (H1 & H2 & _); try assumption.
  - cbn [applicable]. rewrite Hsub. apply Bool.andb_false_r.
  - cbn [applicable]. rewrite Hsub. apply Bool.andb_false_r.
  - split; assumption.
Qed.

Lemma stray_send_ok_dequeues_witness :
  pendingSendState
    (handleResponse 400 "SEND OK" (Scenario.awaiting_result Scenario.queue_AB)) = 0 /\
  option_map size
    (storage
       (handleResponse 500 "SEND OK"
          (handleResponse 400 "SEND OK" (Scenario.awaiting_result Scenario.queue_AB))))
  = Some 0.
Proof.
  split; [reflexivity | ].
  destruct (stray_send_ok_dequeues 500 "SEND OK"
              (handleResponse 400 "SEND OK" (Scenario.awaiting_result Scenario.queue_AB))
              (snd (popOldest Scenario.queue_AB))
              eq_refl eq_refl eq_refl eq_refl) as (H & _).
  rewrite H. reflexivity.
Defined.

(** The connect-confirmation step. *)
Lemma connect_step now line d :
  pendingSendState d = 1 ->
  found line "CONNECT" = true ->
  pendingSendState (handleResponse now line d) = 2 /\
  pendingPayload (handleResponse now line d) = pendingPayload d /\
  ss (handleResponse now line d) = (ss d ++ [ESP01Loop.CIPSEND (pendingPayload d)])%list /\
  storage (handleResponse now line d) = storage d.
Proof.
  intros Hsub Hc. rewrite handleResponse_table.
  destruct (state_checks_frame now line d) as (Fsub & Fpay & Fq & Fss & _). cbv zeta in *.
  rewrite <- Fpay, <- Fss, <- Fq. rewrite <- Fsub in Hsub.
  revert Hsub. generalize (every_applicable state_checks now line d). intros d1 Hsub.
  unfold first_applicable_only, send_checks. cbn [find applicable].
  rewrite Hc, Hsub. cbn [orb andb Z.eqb Pos.eqb action].
  repeat split.
Qed.

(** Outside the connect-confirmation and prompt steps nothing is
    written to the modem. *)
Lemma ss_kept_outside_send now line d :
  applicable ConnectConfirmation line d = false ->
  applicable SendPrompt line d = false ->
  ss (handleResponse now line d) = ss d.
Proof.
  intros Hc Hp. rewrite handleResponse_table.
  destruct (state_checks_frame now line d) as (_ & _ & _ & Fss & _). cbv zeta in *.
  rewrite <- (applicable_after_state_checks ConnectConfirmation now line d) in Hc
    by (cbn; auto).
  rewrite <- (applicable_after_state_checks SendPrompt now line d) in Hp
    by (cbn; auto).
  rewrite <- Fss.
  revert Hc Hp. generalize (every_applicable state_checks now line d). intros d1 Hc Hp.
  unfold first_applicable_only, send_checks. cbn [find]. rewrite Hc, Hp.
  destruct (applicable TransmitResult line d1).
  - cbn [action]. unfold clear_pending_ready, confirm_sent.
    destruct (found line "SEND OK"); cbn [storage Serial_println Serial_print];
      [destruct (storage d1) as [q | ]; [destruct (hasPending q) | ] | ]; reflexivity.
  - destruct (applicable RemoteClose line d1); reflexivity.
Qed.

(** The prompt step. *)
Lemma prompt_step now line d :
  pendingSendState d = 2 ->
  WString.endsWith line ">" = true ->
  ss (handleResponse now line d) = (ss d ++ [pendingPayload d])%list /\
  pendingSendState (handleResponse now line d) = 3 /\
  pendingPayload (handleResponse now line d) = pendingPayload d /\
  storage (handleResponse now line d) = storage d.
Proof.
  intros Hsub Hend. rewrite handleResponse_table.
  destruct (state_checks_frame now line d) as (Fsub & Fpay & Fq & Fss & _).
  cbv zeta in *.
  rewrite <- Fpay, <- Fss, <- Fq. rewrite <- Fsub in Hsub.
  revert Hsub. generalize (every_applicable state_checks now line d). intros d1 Hsub.
  unfold first_applicable_only, send_checks. cbn [find applicable].
  rewrite Hend, Hsub. cbn [andb Z.eqb Pos.eqb]. rewrite Bool.andb_false_r.
  cbn [action]. repeat split.
Qed.


(** X10: the joined-only indicator [WIFI CONNECTED] holds the text
    [CONNECT]: while the connect confirmation is awaited, a line that
    contains it is taken as that confirmation; the command announcing
    the payload is issued and the send moves to sub-state 2. *)
Theorem joined_only_line_advances_send now line d :
  pendingSendState d = 1 ->
  found line "WIFI CONNECTED" = true ->
  pendingSendState (handleResponse now line d) = 2 /\
  pendingPayload (handleResponse now line d) = pendingPayload d /\
  ss (handleResponse now line d) = (ss d ++ [ESP01Loop.CIPSEND (pendingPayload d)])%list.
Proof.
  intros Hsub Hjoin.
  assert (Hc : found line "CONNECT" = true).
  { apply (found_inner line "WIFI CONNECTED" "CONNECT" 5); try assumption.
    - discriminate.
    - cbn. lia.
    - reflexivity. }
  destruct (connect_step now line d Hsub Hc) as (H1 & H2 & H3 & _).
  repeat split; assumption.
Qed.

Lemma joined_only_line_advances_send_witness :
  pendingSendState
    (handleResponse 400 "WIFI CONNECTED" (Scenario.sending Scenario.queue_AB)) = 2.
Proof.
  destruct (joined_only_line_advances_send 400 "WIFI CONNECTED"
              (Scenario.sending Scenario.queue_AB) eq_refl eq_refl) as (H & _).
  exact H.
Defined.

(** X11: every line that contains [ALREADY CONNECT] contains
    [CONNECT], so the connect-confirmation check is decided by
    [CONNECT] and the sub-state alone. *)
Theorem connect_check_decided_by_connect line d :
  applicable ConnectConfirmation line d
  = found line "CONNECT" && (pendingSendState d =? 1).
Proof.
  cbn [applicable].
  destruct (found line "ALREADY CONNECT") eqn:E.
  - rewrite (found_inner line "ALREADY CONNECT" "CONNECT" 8); try assumption.
    + reflexivity.
    + discriminate.
    + cbn. lia.
    + reflexivity.
  - now rewrite Bool.orb_false_r.
Qed.

(** X12: [handleResponse] writes to the modem only in the
    connect-confirmation and prompt steps. *)
Theorem modem_written_only_mid_send now line d :
  applicable ConnectConfirmation line d = false ->
  applicable SendPrompt line d = false ->
  ss (handleResponse now line d) = ss d.
Proof. apply ss_kept_outside_send. Qed.

Lemma modem_written_only_mid_send_witness :
  ss (handleResponse 400 "SEND OK" (Scenario.awaiting_result Scenario.queue_AB))
  = ss (Scenario.awaiting_result Scenario.queue_AB).
Proof.
  apply (modem_written_only_mid_send 400 "SEND OK"
           (Scenario.awaiting_result Scenario.queue_AB)); reflexivity.
Defined.

(** X13: while the prompt is awaited, a line ending in [>] makes the
    driver write the pending payload to the modem, once: the send
    moves to sub-state 3, and the same line handled again writes
    nothing. *)
Theorem prompt_sends_payload_once now now' line d :
  pendingSendState d = 2 ->
  WString.endsWith line ">" = true ->
  ss (handleResponse now line d) = (ss d ++ [pendingPayload d])%list /\
  pendingSendState (handleResponse now line d) = 3 /\
  pendingPayload (handleResponse now line d) = pendingPayload d /\
  storage (handleResponse now line d) = storage d /\
  ss (handleResponse now' line (handleResponse now line d))
  = (ss d ++ [pendingPayload d])%list.
Proof.
  intros Hsub Hend.
  destruct (prompt_step now line d Hsub Hend) as (H1 & H2 & H3 & H4).
  repeat (split; [assumption | ]).
  rewrite <- H1. apply ss_kept_outside_send;
    cbn [applicable]; rewrite H2; apply Bool.andb_false_r.
Qed.

Lemma prompt_sends_payload_once_witness :
  ss (handleResponse 400 ">" (Scenario.awaiting_prompt Scenario.queue_AB))
  = (ss (Scenario.awaiting_prompt Scenario.queue_AB)
       ++ [request Scenario.eventA])%list.
Proof.
  destruct (prompt_sends_payload_once 400 500 ">"
              (Scenario.awaiting_prompt Scenario.queue_AB) eq_refl eq_refl) as (H & _).
  exact H.
Defined.

(** X15: a line that contains [CLOSED] and that no earlier send check
    takes clears the pending payload and the sub-state and sets the
    state to [READY], whatever the state was; the queue is kept. *)
Theorem remote_close_clears_pending now line d :
  found line "CLOSED" = true ->
  applicable ConnectConfirmation line d = false ->
  applicable SendPrompt line d = false ->
  applicable TransmitResult line d = false ->
  pendingPayload (handleResponse now line d) = "" /\
  pendingSendState (handleResponse now line d) = 0 /\
  espState (handleResponse now line d) = ESPState.READY /\
  storage (handleResponse now line d) = storage d.
Proof.
  intros Hcl Hc Hp Hr. rewrite handleResponse_table.
  destruct (state_checks_frame now line d) as (_ & _ & Fq & _). cbv zeta in *.
  rewrite <- (applicable_after_state_checks ConnectConfirmation now line d) in Hc
    by (cbn; auto).
  rewrite <- (applicable_after_state_checks SendPrompt now line d) in Hp
    by (cbn; auto).
  rewrite <- (applicable_after_state_checks TransmitResult now line d) in Hr
    by (cbn; auto).
  rewrite <- Fq.
  revert Hc Hp Hr. generalize (every_applicable state_checks now line d).
  intros d1 Hc Hp Hr.
  unfold first_applicable_only, send_checks. cbn [find]. rewrite Hc, Hp, Hr.
  cbn [applicable]. rewrite Hcl. repeat split.
Qed.

Lemma remote_close_clears_pending_witness :
  espState (handleResponse 400 "ERROR CLOSED" (Scenario.awaiting_result Scenario.queue_AB))
  = ESPState.READY /\
  pendingSendState
    (handleResponse 400 "ERROR CLOSED" (Scenario.awaiting_result Scenario.queue_AB)) = 0.
Proof.
  destruct (remote_close_clears_pending 400 "ERROR CLOSED"
              (Scenario.awaiting_result Scenario.queue_AB)
              eq_refl eq_refl eq_refl eq_refl) as (_ & H2 & H3 & _).
  split; assumption.
Defined.

(** X16: an error indicator wins over an address confirmation on the
    same line: when neither a transmit result nor a remote close is
    handled, a line containing [ERROR] or [DNS FAIL] leaves the state
    [ERROR], and a send request is then refused. *)
Theorem error_line_blocks_sending now line d r :
  found line "ERROR" || found line "DNS FAIL" = true ->
  applicable TransmitResult line d = false ->
  applicable RemoteClose line d = false ->
  espState (handleResponse now line d) = ESPState.ERROR /\
  sendReadingToThingSpeak r (handleResponse now line d)
  = (false, handleResponse now line d).
Proof.
  intros Herr Hr Hcl.
  assert (E : espState (handleResponse now line d) = ESPState.ERROR).
  { rewrite handleResponse_table.
    assert (E1 : espState (every_applicable state_checks now line d) = ESPState.ERROR).
    { unfold every_applicable, state_checks. cbn [fold_left applicable action].
      destruct (found line "WIFI GOT IP"), (found line "ERROR"), (found line "DNS FAIL");
        try discriminate; reflexivity. }
    rewrite <- (applicable_after_state_checks TransmitResult now line d) in Hr
      by (cbn; auto).
    rewrite <- (applicable_after_state_checks RemoteClose now line d) in Hcl
      by (cbn; auto).
    revert E1 Hr Hcl. generalize (every_applicable state_checks now line d).
    intros d1 E1 Hr Hcl.
    destruct (send_stage_cases now line d1)
      as [(_ & E) | [(_ & _ & E) | [(_ & _ & H & _) | [(_ & _ & _ & H & _) | (_ & _ & _ & _ & E)]]]];
      try congruence; cbv zeta in E; rewrite E; exact E1. }
  split; [exact E | ].
  unfold sendReadingToThingSpeak, isReadyForSend. rewrite E. reflexivity.
Qed.

Lemma error_line_blocks_sending_witness :
  espState (handleResponse 400 "WIFI GOT IP ERROR" (Scenario.attached Scenario.queue_AB))
  = ESPState.ERROR.
Proof.
  destruct (error_line_blocks_sending 400 "WIFI GOT IP ERROR"
              (Scenario.attached Scenario.queue_AB) Scenario.eventA
              eq_refl eq_refl eq_refl) as (H & _).
  exact H.
Defined.

(** X14: a whole send.  From [READY] with a non-empty queue
    attached, the request for [r] followed by the lines [CONNECT],
    [>] and [SEND OK] writes three things to the modem (the
    start-connection command, the command announcing the payload and
    the payload), removes exactly the oldest entry of the queue,
    records the success and its time, and leaves the driver [READY]
    with nothing pending. *)
Theorem send_cycle_dequeues_oldest r d q t1 t2 t3 :
  espState d = ESPState.READY ->
  storage d = Some q ->
  hasPending q = true ->
  let d1 := snd (sendReadingToThingSpeak r d) in
  let d2 := handleResponse t1 "CONNECT" d1 in
  let d3 := handleResponse t2 ">" d2 in
  let d4 := handleResponse t3 "SEND OK" d3 in
  fst (sendReadingToThingSpeak r d) = true /\
  ss d4 = (ss d ++ [CIPSTART; ESP01Loop.CIPSEND (request r); request r])%list /\
  storage d4 = Some (snd (popOldest q)) /\
  espState d4 = ESPState.READY /\
  pendingSendState d4 = 0 /\
  pendingPayload d4 = "" /\
  Status.lastSendOk (sysStatus d4) = true /\
  Status.lastSendSuccessTime (sysStatus d4) = CInt.u32 t3.
Proof.
  intros Hready Hq Hpend. cbv zeta.
  assert (S1 : sendReadingToThingSpeak r d
               = (true, with_status (Status.set_espState ESPState.SENDING)
                          (with_pending (request r) 1
                             (with_delaying true (sendAt CIPSTART d))))).
  { unfold sendReadingToThingSpeak, isReadyForSend. rewrite Hready. reflexivity. }
  rewrite S1. cbn [fst snd].
  set (d1 := with_status _ _).
  assert (A1 : pendingSendState d1 = 1 /\ pendingPayload d1 = request r /\
               ss d1 = (ss d ++ [CIPSTART])%list /\ storage d1 = Some q).
  { repeat split. exact Hq. }
  destruct A1 as (P1 & Y1 & W1 & Q1).
  destruct (connect_step t1 "CONNECT" d1 P1 eq_refl) as (P2 & Y2 & W2 & Q2).
  set (d2 := handleResponse t1 "CONNECT" d1) in *.
  destruct (prompt_step t2 ">" d2 P2 eq_refl) as (W3 & P3 & Y3 & Q3).
  set (d3 := handleResponse t2 ">" d2) in *.
  assert (Q3' : storage d3 = Some q) by congruence.
  destruct (send_ok_untaken t3 "SEND OK" d3 q eq_refl) as (Q4 & P4 & Y4 & E4 & T4 & W4);
    try assumption.
  { cbn [applicable]. rewrite P3. reflexivity. }
  { cbn [applicable]. rewrite P3. reflexivity. }
  split; [reflexivity | ].
  split.
  { rewrite W4, W3, W2, W1, Y2, Y1. rewrite <- !app_assoc. reflexivity. }
  repeat (split; [assumption | ]).
  rewrite T4. split; reflexivity.
Qed.

Lemma send_cycle_dequeues_oldest_witness :
  option_map peekOldest
    (storage
       (handleResponse 400 "SEND OK"
          (handleResponse 300 ">"
             (handleResponse 200 "CONNECT"
                (snd (sendReadingToThingSpeak Scenario.eventA
                        (Scenario.ready Scenario.queue_AB)))))))
  = Some (Some Scenario.eventB).
Proof.
  destruct (send_cycle_dequeues_oldest Scenario.eventA
              (Scenario.ready Scenario.queue_AB) Scenario.queue_AB 200 300 400
              eq_refl eq_refl eq_refl) as (_ & _ & H & _).
  cbv zeta in H. rewrite H. reflexivity.
Defined.

End LinkExtras.

Section LoopExtras.

Import EEPROMStorage ESP01Driver ESP01Loop.

Lemma receive_keeps_storage showRaw d timed :
  found (trim (snd timed)) "SEND OK" = false ->
  storage (receive showRaw d timed) = storage d.
Proof.
  intros H. unfold receive.
  destruct (String.length (trim (snd timed)) =? 0)%nat; [reflexivity | ].
  rewrite storage_kept_without_send_ok by exact H.
  destruct showRaw; reflexivity.
Qed.

(** X17: the liveness probe.  With nothing to read, in state
    [BOOTING], [loop] sends [AT] and notes the time exactly when more
    than 2000 ms have passed since the last probe; the elapsed time is
    computed modulo [2^32], so this holds across the roll-over of
    [millis()]. *)
Theorem probe_after_two_seconds showRaw d delta :
  espState d = ESPState.BOOTING ->
  0 <= lastAtCheck d < 2 ^ 32 ->
  0 <= delta < 2 ^ 32 ->
  loop showRaw [] (CInt.u32 (lastAtCheck d + delta)) d
  = if delta >? 2000
    then with_lastAtCheck (CInt.u32 (lastAtCheck d + delta)) (sendAt AT d)
    else d.
Proof.
  intros Hb Hl Hd. unfold loop. cbn [fold_left]. rewrite Hb. cbn [ESPState.eqb andb].
  replace (CInt.u32 (CInt.u32 (lastAtCheck d + delta) - lastAtCheck d)) with delta.
  - reflexivity.
  - unfold CInt.u32, CInt.to_u. rewrite Zminus_mod_idemp_l.
    replace (lastAtCheck d + delta - lastAtCheck d) with delta by lia.
    symmetry. apply Z.mod_small. exact Hd.
Qed.

Lemma probe_after_two_seconds_witness :
  lastAtCheck Cases.booting = 4294966000 /\
  ss (loop false [] 705 Cases.booting) = [AT] /\
  lastAtCheck (loop false [] 705 Cases.booting) = 705.
Proof.
  assert (Hl : 0 <= lastAtCheck Cases.booting < 2 ^ 32) by (vm_compute; split; congruence).
  assert (Hd : 0 <= 2001 < 2 ^ 32) by (vm_compute; split; congruence).
  pose proof (probe_after_two_seconds false Cases.booting 2001 eq_refl Hl Hd) as H.
  split; [reflexivity | ].
  split; [exact (f_equal ss H) | exact (f_equal lastAtCheck H)].
Defined.

(** X18: [loop] changes the queue only through a line that, once
    trimmed, contains [SEND OK]. *)
Theorem loop_keeps_queue_without_send_ok showRaw input now d :
  forallb (fun timed => negb (found (trim (snd timed)) "SEND OK")) input = true ->
  storage (loop showRaw input now d) = storage d.
Proof.
  intros H. unfold loop.
  assert (E : storage (fold_left (receive showRaw) input d) = storage d).
  { revert d. induction input as [ | x input IH]; intros d; cbn [fold_left].
    - reflexivity.
    - cbn [forallb] in H. apply Bool.andb_true_iff in H. destruct H as (Hx & Hrest).
      rewrite (IH Hrest). apply receive_keeps_storage.
      now apply Bool.negb_true_iff in Hx. }
  rewrite <- E.
  destruct (ESPState.eqb _ _ && _); reflexivity.
Qed.

Lemma loop_keeps_queue_without_send_ok_witness :
  storage (loop true Cases.boot_chatter 5000 Cases.booting) = storage Cases.booting.
Proof.
  apply (loop_keeps_queue_without_send_ok true Cases.boot_chatter 5000 Cases.booting).
  reflexivity.
Defined.

End LoopExtras.

(** * Properties of the motion detector *)

Section DetectorExtras.

Import MotionDetector.

Lemma u32_idem z : CInt.u32 (CInt.u32 z) = CInt.u32 z.
Proof.
  unfold CInt.u32, CInt.to_u. apply Z.mod_small. apply Z.mod_pos_bound.
  change (2 ^ 32) with 4294967296. lia.
Qed.

(** While the level stays high nothing changes but [lastState]. *)
Lemma hold_high highs : forall m,
  lastState m <> 0 ->
  forallb (fun sample => negb (fst sample =? 0)) highs = true ->
  let m' := fold_left poll highs m in
  lastState m' <> 0 /\
  motionActive m' = motionActive m /\
  motionStart m' = motionStart m /\
  lastDurationMs m' = lastDurationMs m /\
  storage m' = storage m /\
  status m' = status m.
Proof.
  induction highs as [ | [level now] highs IH]; intros m Hl H; cbn [fold_left].
  - repeat split. exact Hl.
  - cbn [forallb fst] in H. apply Bool.andb_true_iff in H. destruct H as (Hx & Hrest).
    apply Bool.negb_true_iff, Z.eqb_neq in Hx.
    assert (Hstep : lastState (poll m (level, now)) = level /\
                    motionActive (poll m (level, now)) = motionActive m /\
                    motionStart (poll m (level, now)) = motionStart m /\
                    lastDurationMs (poll m (level, now)) = lastDurationMs m /\
                    storage (poll m (level, now)) = storage m /\
                    status (poll m (level, now)) = status m).
    { unfold poll, loop. cbn [fst snd].
      destruct (Z.eqb_spec level 0); [contradiction | ].
      destruct (Z.eqb_spec (lastState m) 0); [contradiction | ].
      cbn [negb andb]. repeat split. }
    destruct Hstep as (S1 & S2 & S3 & S4 & S5 & S6).
    destruct (IH (poll m (level, now))) as (I1 & I2 & I3 & I4 & I5 & I6);
      [congruence | exact Hrest | ].
    cbv zeta in *. repeat split; congruence.
Qed.

(** X19: a motion seen from its start is recorded when it ends.  The
    level rises at [t0], stays high over any number of polls and falls
    at [t1]: [push] is called once, with the duration
    [(t1 - t0) mod 2^32] and with the time of the rise as timestamp,
    and the duration is kept in [lastDurationMs]. *)
Theorem motion_recorded_on_falling_edge m q level t0 highs t1 :
  lastState m = 0 ->
  storage m = Some q ->
  level <> 0 ->
  0 <= t0 < 2 ^ 32 ->
  forallb (fun sample => negb (fst sample =? 0)) highs = true ->
  let m' := loop 0 t1 (fold_left poll highs (loop level t0 m)) in
  storage m'
  = Some (snd (EEPROMStorage.push
                 {| EEPROMStorage.duration_ms := CInt.u32 (t1 - t0);
                    EEPROMStorage.ts := t0 |} q)) /\
  lastDurationMs m' = CInt.u32 (t1 - t0) /\
  motionActive m' = false /\
  lastState m' = 0.
Proof.
  intros Hl Hq Hlev Ht0 Hhighs. cbv zeta.
  assert (Ht0' : CInt.u32 t0 = t0).
  { unfold CInt.u32, CInt.to_u. now apply Z.mod_small. }
  assert (R : lastState (loop level t0 m) = level /\
              motionActive (loop level t0 m) = true /\
              motionStart (loop level t0 m) = t0 /\
              storage (loop level t0 m) = Some q).
  { unfold loop. rewrite Hl.
    destruct (Z.eqb_spec level 0); [contradiction | ].
    cbn [negb andb Z.eqb]. repeat split; assumption. }
  destruct R as (R1 & R2 & R3 & R4).
  destruct (hold_high highs (loop level t0 m)) as (H1 & H2 & H3 & _ & H5 & _);
    [congruence | exact Hhighs | ].
  cbv zeta in *.
  set (mh := fold_left poll highs (loop level t0 m)) in *.
  unfold loop.
  destruct (Z.eqb_spec (lastState mh) 0); [contradiction | ].
  rewrite H2, R2. cbn [Z.eqb negb andb].
  unfold onMotionComplete. cbn [storage]. rewrite H5, R4, H3, R3.
  rewrite !u32_idem, Ht0'.
  destruct (fst (EEPROMStorage.push _ q)); repeat split.
Qed.

Lemma motion_recorded_on_falling_edge_witness :
  lastDurationMs
    (loop 0 5000
       (fold_left poll [(1, 4294965000); (1, 2000)]
          (loop 1 4294960000 (Cases.detector Scenario.cycle_start)))) = 12296 /\
  option_map EEPROMStorage.size
    (storage
       (loop 0 5000
          (fold_left poll [(1, 4294965000); (1, 2000)]
             (loop 1 4294960000 (Cases.detector Scenario.cycle_start))))) = Some 1.
Proof.
  assert (Hlev : 1 <> 0) by discriminate.
  assert (Ht0 : 0 <= 4294960000 < 2 ^ 32) by (vm_compute; split; congruence).
  destruct (motion_recorded_on_falling_edge
              (Cases.detector Scenario.cycle_start) Scenario.cycle_start
              1 4294960000 [(1, 4294965000); (1, 2000)] 5000
              eq_refl eq_refl Hlev Ht0 eq_refl) as (H1 & H2 & _).
  split; [exact H2 | rewrite H1; reflexivity].
Defined.



(** X21: when the queue is full a completed motion is dropped: the
    queue and the status record stay as they were; only
    [lastDurationMs] takes the new duration. *)
Theorem full_queue_drops_motion m q duration ts :
  storage m = Some q ->
  EEPROMStorage.isFull q = true ->
  storage (onMotionComplete duration ts m) = Some q /\
  status (onMotionComplete duration ts m) = status m /\
  lastDurationMs (onMotionComplete duration ts m) = CInt.u32 duration.
Proof.
  intros Hq Hfull. unfold onMotionComplete. cbn [storage]. rewrite Hq.
  unfold EEPROMStorage.push. rewrite Hfull. cbn [fst snd]. repeat split.
Qed.

Lemma full_queue_drops_motion_witness :
  storage (onMotionComplete 1500 7000
             (setStorage (Some Scenario.full_queue) (make 2)))
  = Some Scenario.full_queue.
Proof.
  destruct (full_queue_drops_motion
              (setStorage (Some Scenario.full_queue) (make 2))
              Scenario.full_queue 1500 7000 eq_refl eq_refl) as (H & _).
  exact H.
Defined.

End DetectorExtras.
